(** * Customer-Support-Automation: the large-file ingestion pipeline

    A shallow embedding of [src/processing/file_processor.py]
    (class [LargeFileProcessor]) together with the pandas operations it
    calls, of [src/ml/response_templates.py] and of the classifier
    selection of [src/ml/model_builder.py], and the properties of the
    pipeline stated over them.

    Layout: the data model and the operations come first (text, cells and
    frames, the CSV reader, the processor, the templates, the model
    builder), then the lemmas and theorems.  The [logger] calls of the
    source change no result and are left out. *)

From Stdlib Require Import String Ascii Bool Arith NArith ZArith QArith Lia List Sorted.
From Stdlib Require Import DecimalString.
Import ListNotations.
Open Scope string_scope.
Open Scope list_scope.
Open Scope nat_scope.

Set Implicit Arguments.

(* ================================================================== *)
(** * 1. Python text *)
(* ================================================================== *)

(** A Python [str] is a sequence of Unicode code points. *)
Definition pystr := list N.

(** The code points of an ASCII literal, for examples. *)
Definition py (s : string) : pystr := map N_of_ascii (list_ascii_of_string s).

(** [str.isalnum] of the code points above ASCII.  The Unicode database is
    not part of the program, so the classification is a parameter. *)
Class Unicode := { unicode_alnum : N -> bool }.

(** The code point of [@]. *)
Definition AT : N := 64.

(** [a-zA-Z0-9_]. *)
Definition ascii_word (c : N) : bool :=
  ((48 <=? c) && (c <=? 57) || (65 <=? c) && (c <=? 90)
   || (c =? 95) || (97 <=? c) && (c <=? 122))%N.

(** The class [\w] of Python's [re] on [str] patterns. *)
Definition is_word {U : Unicode} (c : N) : bool :=
  if (c <? 128)%N then ascii_word c else unicode_alnum c.

(** The characters [str.strip()] removes: CPython's [Py_UNICODE_ISSPACE]. *)
Definition is_space (c : N) : bool :=
  ((9 <=? c) && (c <=? 13) || (28 <=? c) && (c <=? 32)
   || (c =? 133) || (c =? 160) || (c =? 5760)
   || (8192 <=? c) && (c <=? 8202)
   || (c =? 8232) || (c =? 8233) || (c =? 8239) || (c =? 8287)
   || (c =? 12288))%N.

Definition next_is_word {U : Unicode} (s : pystr) : bool :=
  match s with
  | d :: _ => is_word d
  | [] => false
  end.

(** [re.sub(r'@\w+', '', s)] as a left-to-right scan.  [in_match] says that
    the scan is inside a match, after its [@] and at least one word
    character: the match is greedy, so every further word character belongs
    to it.  A new match starts at an [@] that is followed by a word
    character. *)
Fixpoint sub_scan {U : Unicode} (in_match : bool) (s : pystr) : pystr :=
  match s with
  | [] => []
  | c :: r =>
      if in_match && is_word c then sub_scan true r
      else if (c =? AT)%N && next_is_word r then sub_scan true r
      else c :: sub_scan false r
  end.

(** [x.replace(r'@\w+', '', regex=True)] on one string. *)
Definition replace_mentions {U : Unicode} (s : pystr) : pystr := sub_scan false s.

Fixpoint dropwhile (A : Type) (p : A -> bool) (l : list A) : list A :=
  match l with
  | [] => []
  | x :: r => if p x then dropwhile p r else l
  end.

Definition lstrip (s : pystr) : pystr := dropwhile is_space s.

(** A character is dropped from the right end when it is whitespace and
    everything after it was dropped. *)
Fixpoint rstrip (s : pystr) : pystr :=
  match s with
  | [] => []
  | c :: r =>
      match rstrip r with
      | [] => if is_space c then [] else [c]
      | t => c :: t
      end
  end.

(** [str.strip()]. *)
Definition strip (s : pystr) : pystr := rstrip (lstrip s).

(** The text normalizer on one string: the element-wise meaning of
    [.str.replace(r'@\w+', '', regex=True).str.strip()]
    ([_process_with_chunks], line 91; [_process_with_dask], line 70). *)
Definition clean_text {U : Unicode} (s : pystr) : pystr := strip (replace_mentions s).

(** A mention token occurs in [s]: an [@] followed by a word character. *)
Definition has_mention {U : Unicode} (s : pystr) : Prop :=
  exists pre c post, s = pre ++ AT :: c :: post /\ is_word c = true.

(** No mention token occurs in [s], decided. *)
Fixpoint mention_free {U : Unicode} (s : pystr) : bool :=
  match s with
  | [] => true
  | c :: r => negb ((c =? AT)%N && next_is_word r) && mention_free r
  end.

(** [subseq t s]: [t] is [s] with some elements removed. *)
Inductive subseq (A : Type) : list A -> list A -> Prop :=
| subseq_nil : subseq [] []
| subseq_keep x t s : subseq t s -> subseq (x :: t) (x :: s)
| subseq_drop x t s : subseq t s -> subseq t (x :: s).

(** ASCII-only classification, as an instance for examples. *)
Definition ascii_only : Unicode := {| unicode_alnum := fun _ => false |}.

(* ================================================================== *)
(** * 2. Exceptions and results *)
(* ================================================================== *)

(** The exceptions the pipeline can meet, with what their message carries.
    All of them are subclasses of Python's [Exception].  [ParserError] is
    the tokenizer's [Expected <expected> fields in line <line>, saw <saw>];
    [DateParseError] stands for the [ValueError] of [pd.to_datetime] on a
    value it cannot parse, with the value and its position in the column. *)
Inductive Exception :=
| FileNotFoundError (path : string)
| EmptyDataError
| ValueError (msg : string)
| ParserError (expected line saw : nat)
| DateParseError (value : pystr) (position : nat)
| KeyError (key : string)
| AttributeError (msg : string)
| TypeError (msg : string)
| OverflowError
| RuntimeError (tag : N).

(** A call either returns a value or raises. *)
Inductive Result (A : Type) :=
| Ok (a : A)
| Err (e : Exception).

Arguments Ok {A} a.
Arguments Err {A} e.

Definition bind (A B : Type) (c : Result A) (k : A -> Result B) : Result B :=
  match c with
  | Ok a => k a
  | Err e => Err e
  end.

Notation "x <- c ;; k" := (bind c (fun x => k))
  (at level 61, c at next level, right associativity).

Definition is_ok (A : Type) (r : Result A) : bool :=
  match r with Ok _ => true | Err _ => false end.

(* ================================================================== *)
(** * 3. Cells and frames *)
(* ================================================================== *)

(** A value of a frame.  [NaN] is a missing value and [Str] a string; [Num]
    and [Boolean] are a number and a truth value of a column that the reader
    typed as such, each kept as the text the file has for it;
    [pd.to_datetime] yields [Timestamp] (nanoseconds since the epoch) or
    [NaT]. *)
Inductive Cell :=
| NaN
| Str (s : pystr)
| Timestamp (t : Z)
| NaT
| Num (s : pystr)
| Boolean (s : pystr).

(** A [pandas.DataFrame]: column labels and the rows under them, each row
    aligned with the labels.  The row index is not modelled
    ([ignore_index=True] renumbers it anyway). *)
Record DataFrame := {
  columns : list string;
  rows : list (list Cell)
}.

(** [len(df)]. *)
Definition nrows (df : DataFrame) : nat := length (rows df).

Fixpoint col_index (name : string) (cols : list string) : option nat :=
  match cols with
  | [] => None
  | c :: r =>
      if String.eqb name c then Some 0
      else match col_index name r with
           | Some i => Some (S i)
           | None => None
           end
  end.

(** [df[name]] read: the column's values, or [KeyError]. *)
Definition get_column (df : DataFrame) (name : string) : Result (list Cell) :=
  match col_index name (columns df) with
  | Some i => Ok (map (fun r => nth i r NaN) (rows df))
  | None => Err (KeyError name)
  end.

Fixpoint replace_nth (A : Type) (i : nat) (v : A) (l : list A) : list A :=
  match l, i with
  | [], _ => []
  | _ :: r, 0 => v :: r
  | x :: r, S j => x :: replace_nth j v r
  end.

(** One row of [df[name] = values]: an existing column is overwritten in
    place, a new one is appended. *)
Definition set_cell (cols : list string) (name : string) (v : Cell)
    (row : list Cell) : list Cell :=
  match col_index name cols with
  | Some i => replace_nth i v row
  | None => row ++ [v]
  end.

Definition set_columns (cols : list string) (name : string) : list string :=
  match col_index name cols with
  | Some _ => cols
  | None => cols ++ [name]
  end.

(** [df[name] = values], for values computed from [df] itself (one per row). *)
Definition set_column (df : DataFrame) (name : string) (values : list Cell) : DataFrame :=
  {| columns := set_columns (columns df) name;
     rows := map (fun rv => set_cell (columns df) name (snd rv) (fst rv))
                 (combine (rows df) values) |}.

(** A field of a line, as the reader takes it on its own: one of its
    missing-value tokens (the empty field is one), a number, a truth value
    ([True], [False]), or any other text.  A number and a truth value carry
    the text the file has for them. *)
Inductive Field :=
| Empty
| Number (s : pystr)
| Truth (s : pystr)
| Text (s : pystr).

(** A line of the file body: its fields.  The reader skips blank lines;
    they are not lines of the body. *)
Definition Line := list Field.

(** A delimited file: its size on disk, the header row, and the lines after
    it.  An empty [header] is a file with no header row. *)
Record CsvFile := {
  file_bytes : Z;
  header : list string;
  body : list Line
}.

(** What lies outside the program: pandas' timestamp parser and memory
    accounting, the files on disk, and the Dask cluster. *)
Class World := {
  (** [pd.to_datetime(column)] on the values of a column that has some: the
      exception it raises or, position by position, the values of its
      result.  The parser works on the column as a whole (its dtype, the
      format of its first value), so it is taken column by column. *)
  parse_datetimes : list Cell -> Result (nat -> Cell);
  (** [df.memory_usage(deep=True).sum()] *)
  memory_usage : DataFrame -> Z;
  (** the file at a path *)
  open_file : string -> option CsvFile;
  (** whether [Client(...)] can be started *)
  client_starts : bool;
  (** the body of the [try] of [_process_with_dask] after the client:
      [dd.read_csv], the two column assignments and [df.compute()] *)
  dask_compute : string -> Result DataFrame
}.

(** [pd.to_datetime(column)]: one value for each value of the column; an
    empty column gives an empty column. *)
Definition to_datetime {W : World} (col : list Cell) : Result (list Cell) :=
  match col with
  | [] => Ok []
  | _ => stamp <- parse_datetimes col ;; Ok (map stamp (seq 0 (length col)))
  end.

Definition is_str (c : Cell) : bool :=
  match c with Str _ => true | _ => false end.

(** The [.str] accessor exists on columns of strings only.  A column in
    which the reader found no string has another dtype (numbers, truth
    values, or float64 when every value is missing), and the accessor
    raises [AttributeError]; an empty column is an object column. *)
Definition str_accessor (col : list Cell) : Result (list Cell) :=
  match col with
  | [] => Ok []
  | _ =>
      if existsb is_str col then Ok col
      else Err (AttributeError "Can only use .str accessor with string values!")
  end.

(** A [.str] method on one value: applied to strings, [NaN] for the rest. *)
Definition str_map (f : pystr -> pystr) (c : Cell) : Cell :=
  match c with
  | Str s => Str (f s)
  | _ => NaN
  end.

(** The normalizer on one value of the text column. *)
Definition clean_text_cell {U : Unicode} (c : Cell) : Cell :=
  str_map strip (str_map replace_mentions c).

(** The text normalizer as the code has it, on a column:
    [column.str.replace(r'@\w+', '', regex=True).str.strip()]
    ([_process_with_chunks], line 91; [_process_with_dask], line 70). *)
Definition normalize_column {U : Unicode} (column : list Cell) : Result (list Cell) :=
  strings <- str_accessor column ;;
  Ok (map clean_text_cell strings).

Definition labels_eqb (a b : list string) : bool :=
  if list_eq_dec string_dec a b then true else false.

(** [name in df.columns]. *)
Definition mem (name : string) (cols : list string) : bool :=
  existsb (String.eqb name) cols.

Definition union_columns (dfs : list DataFrame) : list string :=
  fold_left (fun acc df => acc ++ filter (fun c => negb (mem c acc)) (columns df)) dfs [].

Definition lookup_cell (cols : list string) (row : list Cell) (name : string) : Cell :=
  match col_index name cols with
  | Some i => nth i row NaN
  | None => NaN
  end.

Definition reindex (cols : list string) (df : DataFrame) : list (list Cell) :=
  map (fun row => map (lookup_cell (columns df) row) cols) (rows df).

(** [pd.concat(frames, ignore_index=True)].  No frame: [ValueError].  Frames
    with equal labels: their rows, in order.  Otherwise the outer join: the
    union of the labels in order of appearance, [NaN] where a frame has no
    such column. *)
Definition concat (dfs : list DataFrame) : Result DataFrame :=
  match dfs with
  | [] => Err (ValueError "No objects to concatenate")
  | d :: ds =>
      if forallb (fun x => labels_eqb (columns x) (columns d)) ds
      then Ok {| columns := columns d; rows := flat_map rows dfs |}
      else let cols := union_columns dfs in
           Ok {| columns := cols; rows := flat_map (reindex cols) dfs |}
  end.

(* ================================================================== *)
(** * 4. The CSV reader *)
(* ================================================================== *)

(** A line of fewer fields than the reader expects is filled with missing
    values at its end. *)
Definition pad (n : nat) (fields : list Field) : list Field :=
  fields ++ repeat Empty (n - length fields).

(** The number of fields the tokenizer expects on a line.  It never rejects
    the first line after the header: when that line has more fields than
    the header has labels, its surplus leading fields are taken as the row
    index, and so are those of every later line. *)
Definition table_width (hdr : list string) (lines : list Line) : nat :=
  match lines with
  | [] => length hdr
  | first :: _ => Nat.max (length hdr) (length first)
  end.

(** Tokenizing the lines of one read.  [line_no] is the number of the first
    line in the file (the header is line 1).  A line with more fields than
    expected is rejected, with the message
    [Expected <width> fields in line <line_no>, saw <n>]. *)
Fixpoint tokenize (width line_no : nat) (lines : list Line)
    : Result (list (list Field)) :=
  match lines with
  | [] => Ok []
  | fields :: r =>
      if width <? length fields then Err (ParserError width line_no (length fields))
      else rs <- tokenize width (S line_no) r ;;
           Ok (pad width fields :: rs)
  end.

Definition is_number_or_empty (f : Field) : bool :=
  match f with Empty | Number _ => true | _ => false end.

Definition is_truth_or_empty (f : Field) : bool :=
  match f with Empty | Truth _ => true | _ => false end.

(** The dtype the reader infers for one column of one read, from the fields
    of that read alone.  Numbers (with or without missing values, or missing
    values only) make a numeric column, truth values a column of truth
    values; any other mix makes a column of strings. *)
Definition read_as_strings (col : list Field) : bool :=
  negb (forallb is_number_or_empty col) && negb (forallb is_truth_or_empty col).

(** The value a field becomes in its column: in a column of strings a
    number or a truth value is the string the file has. *)
Definition convert (strings : bool) (f : Field) : Cell :=
  match f with
  | Empty => NaN
  | Text s => Str s
  | Number s => if strings then Str s else Num s
  | Truth s => if strings then Str s else Boolean s
  end.

(** A column of one read, typed. *)
Definition typed_column (col : list Field) : list Cell :=
  map (convert (read_as_strings col)) col.

(** Column [j] of the rows of one read. *)
Definition field_column (j : nat) (rs : list (list Field)) : list Field :=
  map (fun r => nth j r Empty) rs.

(** One row of a read, each field typed with its column. *)
Definition convert_row (rs : list (list Field)) (row : list Field) : list Cell :=
  map (fun jf => convert (read_as_strings (field_column (fst jf) rs)) (snd jf))
      (combine (seq 0 (length row)) row).

Definition convert_rows (rs : list (list Field)) : list (list Cell) :=
  map (convert_row rs) rs.

(** One chunk of the reader: the lines are tokenized, the leading fields
    that make the index are set apart, and each column is typed. *)
Definition read_chunk (hdr : list string) (width line_no : nat) (lines : list Line)
    : Result DataFrame :=
  rs <- tokenize width line_no lines ;;
  Ok {| columns := hdr;
        rows := convert_rows (map (skipn (width - length hdr)) rs) |}.

Fixpoint chunks_fuel (A : Type) (fuel n : nat) (l : list A) : list (list A) :=
  match fuel with
  | 0 => []
  | S f =>
      match l with
      | [] => []
      | _ => firstn n l :: chunks_fuel f n (skipn n l)
      end
  end.

(** Consecutive slices of [n] elements; the last may be shorter. *)
Definition chunks_of (A : Type) (n : nat) (l : list A) : list (list A) :=
  chunks_fuel (length l) n l.

(** The lines each iteration of [TextFileReader] reads.  The first read
    always yields a chunk, even when the file has no row; later reads stop
    at the end of the file. *)
Definition read_chunks (n : nat) (lines : list Line) : list (list Line) :=
  match lines with
  | [] => [[]]
  | _ => chunks_of n lines
  end.

(** [pd.read_csv(filepath, chunksize=n)]: the labels, the number of fields
    expected on a line, and the pending reads. *)
Definition read_csv_chunked {W : World} (filepath : string) (chunksize : Z)
    : Result (list string * nat * list (list Line)) :=
  if (chunksize <? 1)%Z then Err (ValueError "chunksize must be an integer >=1")
  else match open_file filepath with
       | None => Err (FileNotFoundError filepath)
       | Some f =>
           match header f with
           | [] => Err EmptyDataError
           | hdr => Ok (hdr, table_width hdr (body f),
                        read_chunks (Z.to_nat chunksize) (body f))
           end
       end.

(** [pd.read_csv(filepath, nrows=n)]. *)
Definition read_csv_nrows {W : World} (filepath : string) (n : nat) : Result DataFrame :=
  match open_file filepath with
  | None => Err (FileNotFoundError filepath)
  | Some f =>
      match header f with
      | [] => Err EmptyDataError
      | hdr => read_chunk hdr (table_width hdr (body f)) 2 (firstn n (body f))
      end
  end.

(* ================================================================== *)
(** * 5. LargeFileProcessor *)
(* ================================================================== *)

(** [config.py]: the two settings the processor reads. *)
Record Config := {
  CHUNK_SIZE : Z;
  MAX_WORKERS : Z
}.

(** The defaults of [Config.__init__]. *)
Definition default_config : Config := {| CHUNK_SIZE := 10000; MAX_WORKERS := 4 |}.

(** The attributes of a [LargeFileProcessor]. *)
Record Processor := {
  chunk_size : Z;
  client : bool;
  processed_chunks : nat;
  total_rows : nat
}.

(** [__init__]: [chunk_size or config.CHUNK_SIZE]. *)
Definition new_processor (cfg : Config) (size : option Z) : Processor :=
  {| chunk_size := match size with
                   | Some c => if (c =? 0)%Z then CHUNK_SIZE cfg else c
                   | None => CHUNK_SIZE cfg
                   end;
     client := false;
     processed_chunks := 0;
     total_rows := 0 |}.

(** [initialize_dask_client]: a failure is logged and leaves no client. *)
Definition initialize_dask_client {W : World} (self : Processor) : Processor :=
  {| chunk_size := chunk_size self;
     client := client_starts;
     processed_chunks := processed_chunks self;
     total_rows := total_rows self |}.

(** The dictionary [estimate_file_size] returns.  [file_size_mb] is kept in
    bytes: the source divides by [1024 * 1024], which is exact in floating
    point. *)
Record FileInfo := {
  file_size_bytes : Z;
  estimated_rows : Z;
  info_columns : list string;
  recommended_chunk_size : Z
}.

(** [estimate_file_size].  The row estimate
    [int(file_size * 1000 / usage * 1024 * 1024)] is taken in exact
    arithmetic (bytes * 1000 / usage); a zero [usage] makes the quotient
    infinite and [int] raise. *)
Definition estimate_file_size {W : World} (self : Processor) (filepath : string)
    : Result FileInfo :=
  match open_file filepath with
  | None => Err (FileNotFoundError filepath)
  | Some f =>
      sample_df <- read_csv_nrows filepath 1000 ;;
      let usage := memory_usage sample_df in
      if (usage =? 0)%Z then Err OverflowError
      else
        let est := (file_bytes f * 1000 / usage)%Z in
        Ok {| file_size_bytes := file_bytes f;
              estimated_rows := est;
              info_columns := columns sample_df;
              recommended_chunk_size :=
                Z.min (chunk_size self) (Z.max 1000 (est / 100)) |}
  end.

(** The progress callback: it is handed (chunk index, chunk row count,
    [self.total_rows]) and returns, or raises. *)
Definition Callback := nat -> nat -> nat -> option Exception.

(** One invocation of the callback, with its arguments. *)
Definition Call := (nat * nat * nat)%type.

(** What a method call leaves behind: the processor afterwards, the callback
    invocations it made, in order, and what it returned or raised. *)
Record Outcome (A : Type) := {
  after : Processor;
  calls : list Call;
  returned : Result A
}.

(** Lines 90-91: the two column assignments on one chunk. *)
Definition process_chunk {U : Unicode} {W : World} (chunk : DataFrame) : Result DataFrame :=
  created <- get_column chunk "created_at" ;;
  times <- to_datetime created ;;
  let chunk1 := set_column chunk "created_at" times in
  text <- get_column chunk1 "text" ;;
  cleaned <- normalize_column text ;;
  Ok (set_column chunk1 "clean_text" cleaned).

(** [self.processed_chunks += 1; self.total_rows += len(chunk)]. *)
Definition count_chunk (self : Processor) (n : nat) : Processor :=
  {| chunk_size := chunk_size self;
     client := client self;
     processed_chunks := processed_chunks self + 1;
     total_rows := total_rows self + n |}.

(** The [for i, chunk in enumerate(chunk_reader)] loop of
    [_process_with_chunks], lines 88-101.  [pending] are the reads still to
    come, [i] the index of the next one and [line_no] its first line;
    [chunks] is the accumulator, [log] the callback invocations so far.  An
    exception leaves the loop at once. *)
Fixpoint chunk_loop {U : Unicode} {W : World} (callback_func : option Callback)
    (hdr : list string) (width i line_no : nat) (pending : list (list Line))
    (self : Processor) (chunks : list DataFrame) (log : list Call)
    : Outcome (list DataFrame) :=
  match pending with
  | [] => {| after := self; calls := log; returned := Ok chunks |}
  | lines :: rest =>
      match chunk <- read_chunk hdr width line_no lines ;; process_chunk chunk with
      | Err e => {| after := self; calls := log; returned := Err e |}
      | Ok chunk =>
          let self' := count_chunk self (nrows chunk) in
          let chunks' := chunks ++ [chunk] in
          let next := line_no + length lines in
          match callback_func with
          | Some f =>
              let log' := log ++ [(i, nrows chunk, total_rows self')] in
              match f i (nrows chunk) (total_rows self') with
              | Some e => {| after := self'; calls := log'; returned := Err e |}
              | None => chunk_loop callback_func hdr width (S i) next rest self' chunks' log'
              end
          | None => chunk_loop callback_func hdr width (S i) next rest self' chunks' log
          end
      end
  end.

(** [_process_with_chunks].  The [except] clause logs and re-raises the
    exception it caught, unchanged. *)
Definition _process_with_chunks {U : Unicode} {W : World} (self : Processor)
    (filepath : string) (callback_func : option Callback) : Outcome DataFrame :=
  match read_csv_chunked filepath (chunk_size self) with
  | Err e => {| after := self; calls := []; returned := Err e |}
  | Ok (hdr, width, pending) =>
      let o := chunk_loop callback_func hdr width 0 2 pending self [] [] in
      {| after := after o;
         calls := calls o;
         returned := chunks <- returned o ;; concat chunks |}
  end.

(** [_process_with_dask]: any exception of the Dask path is logged and the
    file is processed in chunks instead, without a callback. *)
Definition _process_with_dask {U : Unicode} {W : World} (self : Processor)
    (filepath : string) : Outcome DataFrame :=
  let self1 := if client self then self else initialize_dask_client self in
  match dask_compute filepath with
  | Ok result => {| after := self1; calls := []; returned := Ok result |}
  | Err _ => _process_with_chunks self1 filepath None
  end.

(** [file_info['file_size_mb'] > 100], in bytes. *)
Definition dask_threshold : Z := 100 * (1024 * 1024).

(** [process_large_csv]. *)
Definition process_large_csv {U : Unicode} {W : World} (self : Processor)
    (filepath : string) (callback_func : option Callback) : Outcome DataFrame :=
  match estimate_file_size self filepath with
  | Err e => {| after := self; calls := []; returned := Err e |}
  | Ok file_info =>
      if (dask_threshold <? file_size_bytes file_info)%Z
      then _process_with_dask self filepath
      else _process_with_chunks self filepath callback_func
  end.

(** The attributes [__init__] sets on a [LargeFileProcessor] and the methods
    of the class ([file_processor.py], lines 12-110), by name. *)
Definition instance_attributes : list string :=
  ["chunk_size"; "client"; "processed_chunks"; "total_rows"].

Definition class_methods : list string :=
  ["__init__"; "initialize_dask_client"; "estimate_file_size";
   "process_large_csv"; "_process_with_dask"; "_process_with_chunks"].

(** [processor.<name>], for a name that is not one of the special names
    every object has: the attribute, or [AttributeError]. *)
Definition getattr (name : string) : Result string :=
  if mem name instance_attributes || mem name class_methods then Ok name
  else Err (AttributeError
              ("'LargeFileProcessor' object has no attribute '" ++ name ++ "'")).

(** Lines 156-157 of [show_message_analysis_page] ([app.py]): the two score
    calls [st.session_state.processor._calculate_urgency_score(clean_message)]
    and [..._calculate_frustration_score(clean_message)].  The method is
    looked up on the processor before it is called; [call] is the call of a
    method that was found. *)
Definition score_calls (call : string -> pystr -> Result Q) (clean_message : pystr)
    : Result (Q * Q) :=
  urgency <- getattr "_calculate_urgency_score" ;;
  urgency_score <- call urgency clean_message ;;
  frustration <- getattr "_calculate_frustration_score" ;;
  frustration_score <- call frustration clean_message ;;
  Ok (urgency_score, frustration_score).

(* ================================================================== *)
(** * 6. Specification vocabulary *)
(* ================================================================== *)

(** The text of a field and of a value; a missing one has none. *)
Definition field_text (f : Field) : option pystr :=
  match f with
  | Empty => None
  | Number s | Truth s | Text s => Some s
  end.

Definition cell_text (c : Cell) : option pystr :=
  match c with
  | Str s | Num s | Boolean s => Some s
  | _ => None
  end.

(** The normalized text of a field: what [clean_text] holds for its row in
    a chunk whose text column is a column of strings. *)
Definition normalized {U : Unicode} (f : Field) : Cell :=
  match field_text f with
  | Some s => Str (clean_text s)
  | None => NaN
  end.

(** The values of a column of a frame; [NaN] where there is no such column. *)
Definition column_values (df : DataFrame) (name : string) : list Cell :=
  map (fun row => lookup_cell (columns df) row name) (rows df).

(** The labels of a processed frame: those of the file, and [clean_text]. *)
Definition processed_columns (hdr : list string) : list string :=
  set_columns (set_columns hdr "created_at") "clean_text".

(** The fields of a line under the labels: the line filled to the expected
    number of fields, without the leading fields of the index. *)
Definition row_fields (hdr : list string) (width : nat) (l : Line) : list Field :=
  skipn (width - length hdr) (pad width l).

Definition field_of (hdr : list string) (row : list Field) (name : string) : Field :=
  match col_index name hdr with
  | Some i => nth i row Empty
  | None => Empty
  end.

(** The fields of some lines under one label, in the order of the lines. *)
Definition chunk_column (hdr : list string) (width : nat) (lines : list Line)
    (name : string) : list Field :=
  map (fun l => field_of hdr (row_fields hdr width l) name) lines.

(** A column of the file, in file order. *)
Definition file_column (f : CsvFile) (name : string) : list Field :=
  chunk_column (header f) (table_width (header f) (body f)) (body f) name.

(** The rows of a read whose lines are tokenized, typed. *)
Definition typed_rows (hdr : list string) (width : nat) (lines : list Line)
    : list (list Cell) :=
  convert_rows (map (row_fields hdr width) lines).

(** Every row of the frame has one value for each label. *)
Definition aligned (df : DataFrame) : Prop :=
  Forall (fun row => length row = length (columns df)) (rows df).

(** What a frame holds when it is the lines, processed: the labels of a
    processed frame and one row for each line, in the order of the lines;
    under every label of the file but [created_at] the texts of the fields,
    and under [clean_text] the normalized texts of the [text] fields. *)
Definition processed_from {U : Unicode} (hdr : list string) (width : nat)
    (lines : list Line) (df : DataFrame) : Prop :=
  columns df = processed_columns hdr
  /\ nrows df = length lines
  /\ aligned df
  /\ (forall name, mem name hdr = true -> name <> "created_at" -> name <> "clean_text" ->
        map cell_text (column_values df name)
        = map field_text (chunk_column hdr width lines name))
  /\ column_values df "clean_text" = map normalized (chunk_column hdr width lines "text").

(** A line the tokenizer rejects: it has more fields than expected. *)
Definition rejected (width : nat) (l : Line) : bool := width <? length l.

(** The lines of one read can be processed: the labels have the two columns
    the pipeline reads, no line is rejected, [pd.to_datetime] returns on the
    [created_at] column of the read, and its [text] column is a column of
    strings (or the read has no line). *)
Definition processable {W : World} (hdr : list string) (width : nat)
    (lines : list Line) : bool :=
  mem "created_at" hdr && mem "text" hdr
  && negb (existsb (rejected width) lines)
  && is_ok (to_datetime (typed_column (chunk_column hdr width lines "created_at")))
  && match lines with
     | [] => true
     | _ => read_as_strings (chunk_column hdr width lines "text")
     end.

(** The exception the library raises when it parses the lines of one read:
    that of the tokenizer or, when the lines are tokenized, that of
    [pd.to_datetime] on the [created_at] column; none when both return. *)
Definition parse_error {W : World} (hdr : list string) (width line_no : nat)
    (lines : list Line) : option Exception :=
  match tokenize width line_no lines with
  | Err e => Some e
  | Ok _ =>
      match to_datetime (typed_column (chunk_column hdr width lines "created_at")) with
      | Err e => Some e
      | Ok _ => None
      end
  end.

(** The callback invocations of a run over chunks of the given sizes, from
    chunk index [i] and a running total of [total] rows. *)
Fixpoint progress_calls (i total : nat) (sizes : list nat) : list Call :=
  match sizes with
  | [] => []
  | n :: r => (i, n, total + n) :: progress_calls (S i) (total + n) r
  end.

(** A callback that never raises. *)
Definition returns_normally (callback_func : option Callback) : Prop :=
  forall f, callback_func = Some f -> forall i n t, f i n t = None.

(** The three arguments of a callback invocation. *)
Definition call_index (c : Call) : nat := fst (fst c).
Definition call_rows (c : Call) : nat := snd (fst c).
Definition call_total (c : Call) : nat := snd c.

(** The index of the first read, counting from [i], whose parsing raises. *)
Fixpoint first_bad_chunk {W : World} (hdr : list string) (width i line_no : nat)
    (pending : list (list Line)) : option nat :=
  match pending with
  | [] => None
  | lines :: rest =>
      match parse_error hdr width line_no lines with
      | Some _ => Some i
      | None => first_bad_chunk hdr width (S i) (line_no + length lines) rest
      end
  end.

(** The processor after [chunks] more chunks holding [lines] rows. *)
Definition advance (self : Processor) (chunks lines : nat) : Processor :=
  {| chunk_size := chunk_size self;
     client := client self;
     processed_chunks := processed_chunks self + chunks;
     total_rows := total_rows self + lines |}.

(** The callback returns on each of the given invocations. *)
Definition quiet_on (callback_func : option Callback) (expected : list Call) : Prop :=
  forall g, callback_func = Some g ->
    Forall (fun c => g (call_index c) (call_rows c) (call_total c) = None) expected.

(* ================================================================== *)
(** * 7. A concrete world, for examples *)
(* ================================================================== *)

Definition is_digit (c : N) : bool := ((48 <=? c) && (c <=? 57))%N.

Fixpoint digits_value (acc : Z) (s : pystr) : option Z :=
  match s with
  | [] => Some acc
  | c :: r =>
      if is_digit c
      then digits_value (acc * 10 + Z.of_N (c - 48))%Z r
      else None
  end.

(** A toy timestamp parser: the text has the nineteen characters of
    [YYYY-MM-DD HH:MM:SS], and its value is the number its digits write. *)
Definition parse_iso (s : pystr) : option Z :=
  if (length s =? 19)
     && forallb (fun c => is_digit c || (c =? 45) || (c =? 32) || (c =? 58))%N s
  then digits_value 0 (filter is_digit s)
  else None.

Definition demo_stamp (c : Cell) : option Cell :=
  match c with
  | Str s => option_map Timestamp (parse_iso s)
  | Num s => option_map Timestamp (digits_value 0 s)
  | NaN | NaT => Some NaT
  | Timestamp t => Some (Timestamp t)
  | Boolean _ => None
  end.

Fixpoint demo_failure (position : nat) (col : list Cell) : option Exception :=
  match col with
  | [] => None
  | c :: r =>
      match demo_stamp c, c with
      | Some _, _ => demo_failure (S position) r
      | None, Str s => Some (DateParseError s position)
      | None, _ => Some (TypeError "not convertible to datetime")
      end
  end.

(** The first value that does not parse raises, with its position. *)
Definition demo_parse_datetimes (col : list Cell) : Result (nat -> Cell) :=
  match demo_failure 0 col with
  | Some e => Err e
  | None => Ok (fun i => match demo_stamp (nth i col NaN) with
                         | Some t => t
                         | None => NaT
                         end)
  end.

Definition demo_header : list string :=
  ["tweet_id"; "author_id"; "inbound"; "created_at"; "text"].

Definition demo_line (id author time text : string) : Line :=
  [Number (py id); Number (py author); Truth (py "True"); Text (py time); Text (py text)].

(** The scenario of the specification (section 8) and one more row. *)
Definition demo_body : list Line :=
  [ demo_line "1" "115712" "2017-10-31 22:10:47" "@joe please help urgent";
    demo_line "2" "115713" "2017-10-31 22:10:50" "thanks, all good now";
    demo_line "3" "115714" "2017-10-31 22:10:53"
              "  @AppleSupport my phone is dead @115858 " ].

Definition demo_file : CsvFile :=
  {| file_bytes := 310; header := demo_header; body := demo_body |}.

(** The same rows in a file of 200 MB. *)
Definition big_file : CsvFile :=
  {| file_bytes := 200 * (1024 * 1024); header := demo_header; body := demo_body |}.

(** A file with the header row only. *)
Definition header_only_file : CsvFile :=
  {| file_bytes := 44; header := demo_header; body := [] |}.

(** A file whose second row has a timestamp that does not parse. *)
Definition bad_time_file : CsvFile :=
  {| file_bytes := 120; header := demo_header;
     body := [ demo_line "1" "115712" "2017-10-31 22:10:47" "hello";
               demo_line "2" "115713" "yesterday" "help" ] |}.

(** A file whose second row (line 3) has seven fields. *)
Definition bad_row_file : CsvFile :=
  {| file_bytes := 150; header := demo_header;
     body := [ demo_line "1" "115712" "2017-10-31 22:10:47" "hello";
               demo_line "2" "115713" "2017-10-31 22:10:50" "a"
                 ++ [Text (py "b"); Text (py "c")];
               demo_line "3" "115714" "2017-10-31 22:10:53" "bye" ] |}.

(** A file whose second row has no text: the chunk that holds it still has
    a string in its text column when the chunk size is 2 or more. *)
Definition gappy_file : CsvFile :=
  {| file_bytes := 200; header := demo_header;
     body := [ demo_line "1" "115712" "2017-10-31 22:10:47" "@joe hello";
               [Number (py "2"); Number (py "115713"); Truth (py "True");
                Text (py "2017-10-31 22:10:50"); Empty];
               demo_line "3" "115714" "2017-10-31 22:10:53" "bye" ] |}.

(** A file whose first row has a number for its text. *)
Definition numeric_text_file : CsvFile :=
  {| file_bytes := 100; header := demo_header;
     body := [ [Number (py "1"); Number (py "115712"); Truth (py "True");
                Text (py "2017-10-31 22:10:47"); Number (py "42")];
               demo_line "2" "115713" "2017-10-31 22:10:50" "hello" ] |}.

(** A file whose lines have one field more than the header has labels: the
    first field of each line is the index of its row. *)
Definition indexed_file : CsvFile :=
  {| file_bytes := 160; header := demo_header;
     body := [ Number (py "0") :: demo_line "1" "115712" "2017-10-31 22:10:47" "hello";
               Number (py "1") :: demo_line "2" "115713" "2017-10-31 22:10:50" "bye" ] |}.

Definition demo_files (path : string) : option CsvFile :=
  if String.eqb path "data/twcs.csv" then Some demo_file
  else if String.eqb path "data/big.csv" then Some big_file
  else if String.eqb path "data/empty.csv" then Some header_only_file
  else if String.eqb path "data/bad_a.csv" then Some bad_time_file
  else if String.eqb path "data/bad_b.csv" then Some bad_time_file
  else if String.eqb path "data/bad_row.csv" then Some bad_row_file
  else if String.eqb path "data/numeric.csv" then Some numeric_text_file
  else if String.eqb path "data/indexed.csv" then Some indexed_file
  else None.

(** A world without a Dask cluster: the distributed path always raises. *)
Definition demo_world : World :=
  {| parse_datetimes := demo_parse_datetimes;
     memory_usage := fun df => (Z.of_nat (nrows df) * 400 + 128)%Z;
     open_file := demo_files;
     client_starts := false;
     dask_compute := fun _ => Err (RuntimeError 1) |}.

(** The example world with one more file. *)
Definition gappy_world : World :=
  {| parse_datetimes := demo_parse_datetimes;
     memory_usage := fun df => (Z.of_nat (nrows df) * 400 + 128)%Z;
     open_file := fun path =>
       if String.eqb path "data/gappy.csv" then Some gappy_file else demo_files path;
     client_starts := false;
     dask_compute := fun _ => Err (RuntimeError 1) |}.

(** A callback that only reports. *)
Definition quiet_callback : Callback := fun _ _ _ => None.

(** A callback that raises when it is handed the second chunk. *)
Definition failing_callback : Callback :=
  fun i _ _ => if i =? 1 then Some (RuntimeError 7) else None.

(** A processor with chunks of two rows, for examples. *)
Definition demo_processor : Processor := new_processor default_config (Some 2%Z).

(* ================================================================== *)
(** * 8. ResponseTemplates *)
(* ================================================================== *)

(** The code point of the underscore. *)
Definition UNDERSCORE : N := 95.

Definition pystr_eqb (a b : pystr) : bool :=
  if list_eq_dec N.eq_dec a b then true else false.

(** A Python [dict] with string keys, in insertion order. *)
Fixpoint dict_get (A : Type) (key : pystr) (d : list (pystr * A)) : option A :=
  match d with
  | [] => None
  | (k, v) :: r => if pystr_eqb key k then Some v else dict_get key r
  end.

(** [d[key] = v]: an existing key keeps its place, a new one goes last. *)
Fixpoint dict_set (A : Type) (key : pystr) (v : A) (d : list (pystr * A))
    : list (pystr * A) :=
  match d with
  | [] => [(key, v)]
  | (k, w) :: r => if pystr_eqb key k then (k, v) :: r else (k, w) :: dict_set key v r
  end.

(** A score or threshold handed to the templates, as far as the class uses
    it: what an f-string makes of it, and how it compares with an integer
    constant. *)
Class PyNumber (T : Type) := {
  (** [f"{x}"] *)
  format_number : T -> pystr;
  (** [x > n] *)
  greater_than : T -> Z -> bool
}.

(** Python integers: decimal digits, with a minus sign when negative. *)
Definition int_number : PyNumber Z :=
  {| format_number := fun z => py (NilZero.string_of_int (Z.to_int z));
     greater_than := fun z n => (n <? z)%Z |}.

(** A value of [self.templates]: a dict of lists (by tone) or a list. *)
Inductive TemplateEntry :=
| Toned (variants : list (pystr * list pystr))
| Plain (texts : list pystr).

(** The attributes of a [ResponseTemplates]. *)
Record ResponseTemplates := {
  templates : list (pystr * TemplateEntry);
  custom_templates : list (pystr * list pystr)
}.

Definition _initialize_templates : list (pystr * TemplateEntry) :=
  [
    (py "escalation", Toned
      [
        (py "urgent",
         [ py "I understand this is urgent. I'm escalating this to our priority support team who will contact you within 15 minutes.";
           py "Thank you for bringing this urgent matter to our attention. A specialist will reach out to you immediately.";
           py "I see this requires immediate attention. Let me connect you with our emergency support team right away." ]);
        (py "standard",
         [ py "I'd like to help resolve this for you. For security purposes, please send us a private message.";
           py "To better assist you with your account details, please click 'Message' at the top of your profile.";
           py "Let me get you connected with the right specialist. Please send us a private message to continue." ]) ]);
    (py "acknowledgment", Toned
      [
        (py "frustrated",
         [ py "I sincerely apologize for the inconvenience you've experienced. Let me personally ensure this gets resolved.";
           py "I understand your frustration and I'm here to make this right. Thank you for your patience.";
           py "I'm sorry this hasn't been resolved yet. Let me take ownership of this issue right now." ]);
        (py "neutral",
         [ py "Thank you for contacting us. I'm here to help resolve this matter.";
           py "I appreciate you reaching out. Let me assist you with this right away.";
           py "Thank you for bringing this to our attention. I'll help you get this sorted out." ]) ]);
    (py "instruction", Plain
      [ py "Here's how to resolve this: [specific steps will be inserted]";
        py "Please try these steps: [detailed instructions will be provided]";
        py "To fix this issue, please follow these instructions: [steps will be customized]" ]);
    (py "followup", Plain
      [ py "I wanted to follow up on your previous message. Were you able to resolve the issue?";
        py "Just checking in - did the solution I provided work for you?";
        py "How did everything work out? Please let me know if you need any additional assistance." ]);
    (py "general", Plain
      [ py "Thank you for contacting us. How can I assist you today?";
        py "I'll be happy to help with that. Could you provide more details?";
        py "Thanks for reaching out. Let me look into this for you." ]) ].

(** [__init__]. *)
Definition new_templates : ResponseTemplates :=
  {| templates := _initialize_templates; custom_templates := [] |}.

(** [random.choice(a)] and [np.random.choice(a)]: [draw] is the random
    draw; an empty list raises ([None]). *)
Definition choice (a : list pystr) (draw : nat) : option pystr :=
  match a with
  | [] => None
  | _ => nth_error a (draw mod length a)
  end.

(** [f"{category}_{urgency_score}_{frustration_score}"]. *)
Definition custom_key (T : Type) {P : PyNumber T} (category : pystr)
    (urgency_score frustration_score : T) : pystr :=
  category ++ [UNDERSCORE] ++ format_number urgency_score
           ++ [UNDERSCORE] ++ format_number frustration_score.

(** [np.random.choice(self.templates[category][tone])]; a missing key, or
    an entry that is a list, raises. *)
Definition toned_choice (self : ResponseTemplates) (category tone : pystr)
    (draw : nat) : option pystr :=
  match dict_get category (templates self) with
  | Some (Toned variants) =>
      match dict_get tone variants with
      | Some texts => choice texts draw
      | None => None
      end
  | _ => None
  end.

(** The [try] block of [get_template]; [None] when it raises. *)
Definition get_template_body (T : Type) {P : PyNumber T} (self : ResponseTemplates)
    (category : pystr) (urgency_score frustration_score : T) (draw : nat)
    : option pystr :=
  match dict_get (custom_key category urgency_score frustration_score)
                 (custom_templates self) with
  | Some texts => choice texts draw
  | None =>
      if pystr_eqb category (py "escalation") then
        if greater_than urgency_score 5
        then toned_choice self (py "escalation") (py "urgent") draw
        else toned_choice self (py "escalation") (py "standard") draw
      else if pystr_eqb category (py "acknowledgment") then
        if greater_than frustration_score 3
        then toned_choice self (py "acknowledgment") (py "frustrated") draw
        else toned_choice self (py "acknowledgment") (py "neutral") draw
      else
        match dict_get category (templates self) with
        | Some (Plain texts) => choice texts draw
        | Some (Toned _) => None
        | None => Some (py "Thank you for contacting us. How can I assist you today?")
        end
  end.

(** [get_template]: any exception of the [try] block is logged and answered
    with a fixed text. *)
Definition get_template (T : Type) {P : PyNumber T} (self : ResponseTemplates)
    (category : pystr) (urgency_score frustration_score : T) (draw : nat) : pystr :=
  match get_template_body self category urgency_score frustration_score draw with
  | Some text => text
  | None => py "Thank you for your message. We'll get back to you shortly."
  end.

(** The key [add_custom_template] builds: the category, then each threshold
    that is not [None]. *)
Definition threshold_key (T : Type) {P : PyNumber T} (category : pystr)
    (urgency_threshold frustration_threshold : option T) : pystr :=
  category
  ++ match urgency_threshold with
     | Some u => [UNDERSCORE] ++ format_number u
     | None => []
     end
  ++ match frustration_threshold with
     | Some f => [UNDERSCORE] ++ format_number f
     | None => []
     end.

(** The templates stored under a key; none when the key is absent. *)
Definition stored_templates (self : ResponseTemplates) (key : pystr) : list pystr :=
  match dict_get key (custom_templates self) with
  | Some texts => texts
  | None => []
  end.

(** [add_custom_template]. *)
Definition add_custom_template (T : Type) {P : PyNumber T} (self : ResponseTemplates)
    (category template : pystr) (urgency_threshold frustration_threshold : option T)
    : ResponseTemplates :=
  let key := threshold_key category urgency_threshold frustration_threshold in
  {| templates := templates self;
     custom_templates :=
       dict_set key (stored_templates self key ++ [template]) (custom_templates self) |}.

(** No underscore occurs in [s]. *)
Definition no_underscore (s : pystr) : bool :=
  forallb (fun c => negb (c =? UNDERSCORE)%N) s.

(** A threshold that is given is written without an underscore. *)
Definition clean_threshold (T : Type) {P : PyNumber T} (threshold : option T) : bool :=
  match threshold with
  | Some x => no_underscore (format_number x)
  | None => true
  end.

(** The default templates of a category and tone; none when there is no
    such entry. *)
Definition default_texts (category tone : pystr) : list pystr :=
  match dict_get category _initialize_templates with
  | Some (Toned variants) =>
      match dict_get tone variants with
      | Some texts => texts
      | None => []
      end
  | _ => []
  end.

(** The objects [__init__] and [add_custom_template] can build. *)
Inductive built (T : Type) {P : PyNumber T} : ResponseTemplates -> Prop :=
| built_new : built new_templates
| built_add self category template urgency_threshold frustration_threshold :
    built self ->
    built (add_custom_template self category template
             urgency_threshold frustration_threshold).

(* ================================================================== *)
(** * 9. ModelBuilder *)
(* ================================================================== *)

(** [a < b] on scores. *)
Definition Qltb (a b : Q) : bool := negb (Qle_bool b a).

(** scikit-learn, as far as [build_response_classifier] uses it.  An
    estimator is fitted in place, so the fitted estimator is what the loop
    keeps; each call may raise. *)
Class Sklearn (Features Labels Estimator : Type) := {
  (** [train_test_split(X, y, test_size=0.2, random_state=42)]:
      [(X_train, X_test, y_train, y_test)] *)
  train_test_split : Features -> Labels
                     -> Result (Features * Features * Labels * Labels);
  (** [MultinomialNB()] *)
  MultinomialNB : Estimator;
  (** [RandomForestClassifier(n_estimators=100, random_state=42)] *)
  RandomForestClassifier : Estimator;
  (** [model.fit(X_train, y_train)] *)
  fit : Estimator -> Features -> Labels -> Result Estimator;
  (** [model.score(X_test, y_test)] *)
  score : Estimator -> Features -> Labels -> Result Q
}.

(** The attributes of a [ModelBuilder]; a stored [None] is Python's. *)
Record ModelBuilder (Estimator Vectorizer : Type) := {
  models : list (pystr * option Estimator);
  vectorizers : list (pystr * Vectorizer)
}.

(** The [for name, model in models.items()] loop of
    [build_response_classifier], lines 37-45. *)
Fixpoint best_of (Features Labels Estimator : Type) {S : Sklearn Features Labels Estimator}
    (candidates : list (pystr * Estimator))
    (X_train X_test : Features) (y_train y_test : Labels)
    (best_model : option Estimator) (best_score : Q)
    : Result (option Estimator * Q) :=
  match candidates with
  | [] => Ok (best_model, best_score)
  | (name, model) :: rest =>
      fitted <- fit model X_train y_train ;;
      s <- score fitted X_test y_test ;;
      if Qltb best_score s
      then best_of rest X_train X_test y_train y_test (Some fitted) s
      else best_of rest X_train X_test y_train y_test best_model best_score
  end.

(** The dict [models] of [build_response_classifier], in its order. *)
Definition classifier_candidates (Features Labels Estimator : Type)
    {S : Sklearn Features Labels Estimator} : list (pystr * Estimator) :=
  [ (py "naive_bayes", MultinomialNB); (py "random_forest", RandomForestClassifier) ].

(** [build_response_classifier]. *)
Definition build_response_classifier (Features Labels Estimator Vectorizer : Type)
    {S : Sklearn Features Labels Estimator}
    (self : ModelBuilder Estimator Vectorizer) (text_features : Features) (y : Labels)
    : Result (ModelBuilder Estimator Vectorizer) :=
  split <- train_test_split text_features y ;;
  let '(X_train, X_test, y_train, y_test) := split in
  best <- best_of classifier_candidates X_train X_test y_train y_test None 0%Q ;;
  Ok {| models := dict_set (py "response_classifier") (fst best) (models self);
        vectorizers := vectorizers self |}.

(** A toy scikit-learn for examples: an estimator is its name and whether
    it is fitted, and both algorithms reach the same accuracy. *)
Definition toy_sklearn : Sklearn unit unit (pystr * bool) :=
  {| train_test_split := fun _ _ => Ok (tt, tt, tt, tt);
     MultinomialNB := (py "nb", false);
     RandomForestClassifier := (py "rf", false);
     fit := fun m _ _ => Ok (fst m, true);
     score := fun _ _ _ => Ok (4 # 5)%Q |}.

(* ================================================================== *)
(** * Lemmas: text *)
(* ================================================================== *)

Lemma subseq_refl (A : Type) (l : list A) : subseq l l.
Proof. induction l; constructor; assumption. Qed.

Lemma subseq_trans (A : Type) (a b c : list A) :
  subseq a b -> subseq b c -> subseq a c.
Proof.
  intros Hab Hbc. revert a Hab.
  induction Hbc as [|x t s Hts IH|x t s Hts IH]; intros a Hab.
  - exact Hab.
  - inversion Hab; subst; constructor; auto.
  - constructor. auto.
Qed.

Lemma dropwhile_subseq (A : Type) (p : A -> bool) (l : list A) :
  subseq (dropwhile p l) l.
Proof.
  induction l as [|x r IH]; simpl; [constructor|].
  destruct (p x); [constructor; exact IH|apply subseq_refl].
Qed.

Lemma dropwhile_head (A : Type) (p : A -> bool) (l : list A) (x : A) (r : list A) :
  dropwhile p l = x :: r -> p x = false.
Proof.
  induction l as [|y l IH]; simpl; [discriminate|].
  destruct (p y) eqn:Hy; [exact IH|].
  intros [= <- _]. exact Hy.
Qed.

Lemma dropwhile_fixed (A : Type) (p : A -> bool) (l : list A) :
  (forall x r, l = x :: r -> p x = false) -> dropwhile p l = l.
Proof.
  destruct l as [|x r]; simpl; [reflexivity|].
  intros H. rewrite (H x r eq_refl). reflexivity.
Qed.

Lemma rstrip_cons (s : pystr) (c : N) (t : pystr) :
  rstrip s = c :: t -> exists r, s = c :: r.
Proof.
  destruct s as [|d r]; simpl; [discriminate|].
  destruct (rstrip r); [destruct (is_space d)|]; intros [= <- _]; eauto.
Qed.

Lemma rstrip_subseq (s : pystr) : subseq (rstrip s) s.
Proof.
  induction s as [|c r IH]; simpl; [constructor|].
  destruct (rstrip r) as [|d t].
  - destruct (is_space c); constructor; exact IH.
  - constructor. exact IH.
Qed.

Lemma rstrip_idempotent (s : pystr) : rstrip (rstrip s) = rstrip s.
Proof.
  induction s as [|c r IH]; simpl; [reflexivity|].
  destruct (rstrip r) as [|d t] eqn:Hs.
  - destruct (is_space c) eqn:Hc; simpl; [reflexivity|].
    rewrite Hc. reflexivity.
  - change (rstrip (c :: d :: t)) with
      (match rstrip (d :: t) with
       | [] => if is_space c then [] else [c]
       | u => c :: u
       end).
    rewrite IH. reflexivity.
Qed.

Lemma rstrip_last (s t : pystr) (c : N) :
  rstrip s = t ++ [c] -> is_space c = false.
Proof.
  revert t. induction s as [|d r IH]; intros t; simpl.
  - destruct t; discriminate.
  - destruct (rstrip r) as [|e u] eqn:Hs.
    + destruct (is_space d) eqn:Hd.
      * destruct t; discriminate.
      * destruct t as [|x [|y t]]; try discriminate.
        intros [= <-]. exact Hd.
    + destruct t as [|x t]; [discriminate|].
      intros [= _ Ht]. exact (IH t Ht).
Qed.

Lemma lstrip_decompose (s : pystr) :
  exists pre, s = pre ++ lstrip s /\ forallb is_space pre = true.
Proof.
  unfold lstrip. induction s as [|c r (pre & Hr & Hp)]; simpl.
  - exists []. split; reflexivity.
  - destruct (is_space c) eqn:Hc.
    + exists (c :: pre). simpl. rewrite Hc, Hp. split; [congruence|reflexivity].
    + exists []. split; reflexivity.
Qed.

Lemma rstrip_decompose (s : pystr) :
  exists post, s = rstrip s ++ post /\ forallb is_space post = true.
Proof.
  induction s as [|c r (post & Hr & Hp)]; simpl.
  - exists []. split; reflexivity.
  - destruct (rstrip r) as [|d t].
    + destruct (is_space c) eqn:Hc.
      * exists (c :: post). simpl in *. rewrite Hc, Hp. split; [congruence|reflexivity].
      * exists post. simpl in *. split; [congruence|exact Hp].
    + exists post. split; [simpl in *; congruence|exact Hp].
Qed.

(** [strip] removes a run of whitespace at each end, and nothing else. *)
Lemma strip_decompose (s : pystr) :
  exists pre post,
    s = pre ++ strip s ++ post
    /\ forallb is_space pre = true /\ forallb is_space post = true.
Proof.
  destruct (lstrip_decompose s) as (pre & Hs & Hpre).
  destruct (rstrip_decompose (lstrip s)) as (post & Hl & Hpost).
  exists pre, post. unfold strip. rewrite <- Hl. auto.
Qed.

Lemma strip_head (s : pystr) (c : N) (r : pystr) :
  strip s = c :: r -> is_space c = false.
Proof.
  unfold strip, lstrip. intros H.
  destruct (rstrip_cons _ H) as [r' Hr'].
  exact (dropwhile_head _ _ Hr').
Qed.

Lemma strip_last (s r : pystr) (c : N) :
  strip s = r ++ [c] -> is_space c = false.
Proof. apply rstrip_last. Qed.

Lemma strip_subseq (s : pystr) : subseq (strip s) s.
Proof.
  unfold strip, lstrip.
  eapply subseq_trans; [apply rstrip_subseq|apply dropwhile_subseq].
Qed.

Lemma strip_idempotent (s : pystr) : strip (strip s) = strip s.
Proof.
  unfold strip at 1. unfold lstrip.
  rewrite dropwhile_fixed by (intros x r; apply strip_head).
  unfold strip. apply rstrip_idempotent.
Qed.

Section TextLemmas.
Context {U : Unicode}.

Lemma at_not_word : is_word AT = false.
Proof. reflexivity. Qed.

Lemma sub_scan_in_match (s : pystr) :
  sub_scan true s = sub_scan false (dropwhile is_word s).
Proof.
  induction s as [|c r IH]; simpl; [reflexivity|].
  destruct (is_word c) eqn:Hw; simpl.
  - exact IH.
  - reflexivity.
Qed.

(** Leftmost, greedy: at a mention the scan drops the [@] and the longest
    run of word characters after it. *)
Lemma replace_mentions_at (d : N) (r : pystr) :
  is_word d = true ->
  replace_mentions (AT :: d :: r) = replace_mentions (dropwhile is_word r).
Proof.
  intros Hd. unfold replace_mentions. simpl. rewrite Hd. simpl.
  apply sub_scan_in_match.
Qed.

Lemma replace_mentions_keep (c : N) (r : pystr) :
  ((c =? AT)%N && next_is_word r) = false ->
  replace_mentions (c :: r) = c :: replace_mentions r.
Proof.
  intros H. unfold replace_mentions. simpl. rewrite H. reflexivity.
Qed.

Lemma in_match_head (s : pystr) : next_is_word (sub_scan true s) = false.
Proof.
  induction s as [|c r IH]; simpl; [reflexivity|].
  destruct (is_word c) eqn:Hw; simpl; [exact IH|].
  destruct ((c =? AT)%N && next_is_word r); [exact IH|].
  simpl. exact Hw.
Qed.

Lemma scan_head (s : pystr) :
  next_is_word s = false -> next_is_word (sub_scan false s) = false.
Proof.
  destruct s as [|c r]; simpl; [reflexivity|].
  intros Hw.
  destruct ((c =? AT)%N && next_is_word r); [apply in_match_head|].
  simpl. exact Hw.
Qed.

(** One pass leaves no mention token behind. *)
Lemma sub_scan_mention_free (s : pystr) (b : bool) :
  mention_free (sub_scan b s) = true.
Proof.
  revert b. induction s as [|c r IH]; intros b; simpl; [reflexivity|].
  destruct (b && is_word c); [apply IH|].
  destruct ((c =? AT)%N && next_is_word r) eqn:Hm; [apply IH|].
  simpl. rewrite IH, andb_true_r.
  apply negb_true_iff.
  apply andb_false_iff in Hm. destruct Hm as [Hc|Hn].
  - rewrite Hc. reflexivity.
  - rewrite (scan_head _ Hn). apply andb_false_r.
Qed.

Lemma mention_free_fixed (s : pystr) :
  mention_free s = true -> replace_mentions s = s.
Proof.
  unfold replace_mentions.
  induction s as [|c r IH]; simpl; [reflexivity|].
  intros H. apply andb_true_iff in H. destruct H as [Hc Hr].
  apply negb_true_iff in Hc. rewrite Hc. f_equal. exact (IH Hr).
Qed.

Lemma mention_free_has_mention (s : pystr) :
  mention_free s = true <-> ~ has_mention s.
Proof.
  split.
  - intros Hf (pre & c & post & -> & Hw).
    induction pre as [|x pre IH]; simpl in Hf.
    + rewrite Hw in Hf. discriminate.
    + apply andb_true_iff in Hf. exact (IH (proj2 Hf)).
  - induction s as [|c r IH]; intros Hn; simpl; [reflexivity|].
    apply andb_true_iff. split.
    + apply negb_true_iff. apply not_true_is_false. intros Hm.
      apply andb_true_iff in Hm. destruct Hm as [Hc Hw].
      apply N.eqb_eq in Hc. subst c.
      destruct r as [|d r']; [discriminate|].
      apply Hn. exists [], d, r'. split; [reflexivity|exact Hw].
    + apply IH. intros (pre & d & post & -> & Hw).
      apply Hn. exists (c :: pre), d, post. split; [reflexivity|exact Hw].
Qed.

Lemma sub_scan_subseq (s : pystr) (b : bool) : subseq (sub_scan b s) s.
Proof.
  revert b. induction s as [|c r IH]; intros b; simpl; [constructor|].
  destruct (b && is_word c); [constructor; apply IH|].
  destruct ((c =? AT)%N && next_is_word r); constructor; apply IH.
Qed.

Lemma mention_free_dropwhile (p : N -> bool) (s : pystr) :
  mention_free s = true -> mention_free (dropwhile p s) = true.
Proof.
  induction s as [|c r IH]; simpl; [trivial|].
  intros H. destruct (p c); [|exact H].
  apply andb_true_iff in H. exact (IH (proj2 H)).
Qed.

Lemma mention_free_rstrip (s : pystr) :
  mention_free s = true -> mention_free (rstrip s) = true.
Proof.
  induction s as [|c r IH]; simpl; [trivial|].
  intros H. apply andb_true_iff in H. destruct H as [Hc Hr].
  specialize (IH Hr).
  destruct (rstrip r) as [|d t] eqn:Hs.
  - destruct (is_space c); simpl; [reflexivity|].
    rewrite andb_false_r. reflexivity.
  - destruct (rstrip_cons _ Hs) as [r' ->].
    simpl in *. rewrite Hc. exact IH.
Qed.

Lemma mention_free_strip (s : pystr) :
  mention_free s = true -> mention_free (strip s) = true.
Proof.
  intros H. apply mention_free_rstrip, mention_free_dropwhile, H.
Qed.

End TextLemmas.

(* ================================================================== *)
(** * Lemmas: frames and the reader *)
(* ================================================================== *)

Lemma combine_map_r (A B : Type) (g : A -> B) (l : list A) :
  combine l (map g l) = map (fun x => (x, g x)) l.
Proof. induction l; simpl; congruence. Qed.

Lemma map_fst_combine (A B : Type) (l : list A) (l' : list B) :
  length l = length l' -> map fst (combine l l') = l.
Proof.
  revert l'. induction l as [|x r IH]; intros [|y r']; simpl; try discriminate;
    [reflexivity|].
  intros [= H]. rewrite (IH _ H). reflexivity.
Qed.

Lemma map_snd_combine (A B : Type) (l : list A) (l' : list B) :
  length l = length l' -> map snd (combine l l') = l'.
Proof.
  revert l'. induction l as [|x r IH]; intros [|y r']; simpl; try discriminate;
    [reflexivity|].
  intros [= H]. rewrite (IH _ H). reflexivity.
Qed.

Lemma col_index_mem (name : string) (cols : list string) :
  mem name cols = true -> exists i, col_index name cols = Some i.
Proof.
  unfold mem. induction cols as [|c r IH]; simpl; [discriminate|].
  destruct (String.eqb name c); [eauto|].
  simpl. intros H. destruct (IH H) as [i ->]. eauto.
Qed.

Lemma col_index_none (name : string) (cols : list string) :
  mem name cols = false -> col_index name cols = None.
Proof.
  unfold mem. induction cols as [|c r IH]; simpl; [reflexivity|].
  destruct (String.eqb name c); [discriminate|].
  simpl. intros H. rewrite (IH H). reflexivity.
Qed.

Lemma col_index_some_mem (name : string) (cols : list string) (i : nat) :
  col_index name cols = Some i -> mem name cols = true.
Proof.
  intros H. destruct (mem name cols) eqn:E; [reflexivity|].
  rewrite (col_index_none _ _ E) in H. discriminate.
Qed.

Lemma col_index_nth_error (name : string) (cols : list string) (i : nat) :
  col_index name cols = Some i -> nth_error cols i = Some name.
Proof.
  revert i. induction cols as [|c r IH]; intros i; simpl; [discriminate|].
  destruct (String.eqb name c) eqn:E.
  - intros [= <-]. apply String.eqb_eq in E. subst. reflexivity.
  - destruct (col_index name r); [|discriminate].
    intros [= <-]. simpl. apply IH. reflexivity.
Qed.

Lemma col_index_inj (a b : string) (cols : list string) (i : nat) :
  col_index a cols = Some i -> col_index b cols = Some i -> a = b.
Proof.
  intros Ha Hb. apply col_index_nth_error in Ha, Hb. congruence.
Qed.

Lemma col_index_lt (name : string) (cols : list string) (i : nat) :
  col_index name cols = Some i -> i < length cols.
Proof.
  intros H. apply col_index_nth_error in H.
  apply nth_error_Some. congruence.
Qed.

Lemma col_index_app_l (name : string) (cols more : list string) (i : nat) :
  col_index name cols = Some i -> col_index name (cols ++ more) = Some i.
Proof.
  revert i. induction cols as [|c r IH]; intros i; simpl; [discriminate|].
  destruct (String.eqb name c); [trivial|].
  destruct (col_index name r) as [j|]; [|discriminate].
  intros [= <-]. rewrite (IH j eq_refl). reflexivity.
Qed.

Lemma col_index_app_new (name other : string) (cols : list string) :
  col_index name cols = None ->
  col_index name (cols ++ [other])
  = if String.eqb name other then Some (length cols) else None.
Proof.
  induction cols as [|c r IH]; simpl.
  - destruct (String.eqb name other); reflexivity.
  - destruct (String.eqb name c); [discriminate|].
    destruct (col_index name r); [discriminate|].
    intros _. rewrite (IH eq_refl).
    destruct (String.eqb name other); reflexivity.
Qed.

Lemma nth_replace_nth_neq (A : Type) (i j : nat) (v d : A) (l : list A) :
  i <> j -> nth i (replace_nth j v l) d = nth i l d.
Proof.
  revert i j. induction l as [|x r IH]; intros i j Hij; simpl.
  - destruct j; reflexivity.
  - destruct j, i; simpl; try reflexivity; try congruence.
    apply IH. congruence.
Qed.

Lemma length_replace_nth (A : Type) (i : nat) (v : A) (l : list A) :
  length (replace_nth i v l) = length l.
Proof.
  revert i. induction l as [|x r IH]; intros i; simpl.
  - destruct i; reflexivity.
  - destruct i; simpl; [reflexivity|]. rewrite IH. reflexivity.
Qed.

Lemma nth_replace_nth_eq (A : Type) (i : nat) (v d : A) (l : list A) :
  i < length l -> nth i (replace_nth i v l) d = v.
Proof.
  revert i. induction l as [|x r IH]; intros i; simpl; [lia|].
  destruct i; simpl; [reflexivity|]. intros H. apply IH. lia.
Qed.

Lemma set_cell_length (cols : list string) (name : string) (v : Cell)
    (row : list Cell) :
  length row = length cols ->
  length (set_cell cols name v row) = length (set_columns cols name).
Proof.
  intros H. unfold set_cell, set_columns.
  destruct (col_index name cols).
  - rewrite length_replace_nth. exact H.
  - rewrite !length_app. simpl. lia.
Qed.

(** Reading back the column just assigned. *)
Lemma lookup_set_cell_same (cols : list string) (name : string) (v : Cell)
    (row : list Cell) :
  length row = length cols ->
  lookup_cell (set_columns cols name) (set_cell cols name v row) name = v.
Proof.
  intros H. unfold lookup_cell, set_cell, set_columns.
  destruct (col_index name cols) as [i|] eqn:E.
  - rewrite E. apply nth_replace_nth_eq.
    rewrite H. exact (col_index_lt _ _ E).
  - rewrite (@col_index_app_new name name cols E), String.eqb_refl.
    rewrite <- H, nth_middle. reflexivity.
Qed.

(** An assignment leaves every other column as it was. *)
Lemma lookup_set_cell_other (cols : list string) (name c : string) (v : Cell)
    (row : list Cell) :
  length row = length cols -> c <> name ->
  lookup_cell (set_columns cols name) (set_cell cols name v row) c
  = lookup_cell cols row c.
Proof.
  intros H Hne. unfold lookup_cell, set_cell, set_columns.
  destruct (col_index name cols) as [j|] eqn:Ej.
  - destruct (col_index c cols) as [i|] eqn:Ei; [|reflexivity].
    apply nth_replace_nth_neq. intros ->.
    apply Hne. exact (col_index_inj _ _ _ Ei Ej).
  - destruct (col_index c cols) as [i|] eqn:Ei.
    + rewrite (@col_index_app_l c cols [name] i Ei).
      apply app_nth1. rewrite H. exact (col_index_lt _ _ Ei).
    + rewrite (@col_index_app_new c name cols Ei).
      apply String.eqb_neq in Hne. rewrite Hne. reflexivity.
Qed.

Lemma get_column_length (df : DataFrame) (name : string) (col : list Cell) :
  get_column df name = Ok col -> length col = nrows df.
Proof.
  unfold get_column, nrows.
  destruct (col_index name (columns df)); [|discriminate].
  intros [= <-]. apply length_map.
Qed.

(** A column that is read is the values under its label. *)
Lemma get_column_values (df : DataFrame) (name : string) (col : list Cell) :
  get_column df name = Ok col -> col = column_values df name.
Proof.
  unfold get_column, column_values, lookup_cell.
  destruct (col_index name (columns df)); [|discriminate].
  intros [= <-]. reflexivity.
Qed.

Lemma get_column_mem (df : DataFrame) (name : string) :
  mem name (columns df) = true -> get_column df name = Ok (column_values df name).
Proof.
  intros H. destruct (col_index_mem _ _ H) as [i Hi].
  unfold get_column, column_values, lookup_cell. rewrite Hi. reflexivity.
Qed.

Lemma get_column_ok_mem (df : DataFrame) (name : string) (col : list Cell) :
  get_column df name = Ok col -> mem name (columns df) = true.
Proof.
  unfold get_column. destruct (col_index name (columns df)) eqn:E; [|discriminate].
  intros _. exact (col_index_some_mem _ _ E).
Qed.

Lemma column_values_length (df : DataFrame) (name : string) :
  length (column_values df name) = nrows df.
Proof. apply length_map. Qed.

Lemma set_column_nrows (df : DataFrame) (name : string) (values : list Cell) :
  length values = nrows df -> nrows (set_column df name values) = nrows df.
Proof.
  unfold nrows, set_column. simpl. intros H.
  rewrite length_map, length_combine. lia.
Qed.

Lemma set_column_aligned (df : DataFrame) (name : string) (values : list Cell) :
  aligned df -> aligned (set_column df name values).
Proof.
  unfold aligned, set_column. simpl. intros H.
  apply Forall_forall. intros row Hin.
  apply in_map_iff in Hin. destruct Hin as ([r v] & <- & Hin).
  apply in_combine_l in Hin. rewrite Forall_forall in H.
  simpl. apply set_cell_length. exact (H r Hin).
Qed.

(** Reading back a column that was assigned, and any other column. *)
Lemma column_values_set_same (df : DataFrame) (name : string) (values : list Cell) :
  aligned df -> length values = nrows df ->
  column_values (set_column df name values) name = values.
Proof.
  unfold aligned, nrows, column_values, set_column. simpl. intros Ha Hl.
  rewrite map_map.
  rewrite <- (map_snd_combine (rows df) values) at 2 by (symmetry; exact Hl).
  apply map_ext_in. intros [r v] Hin. simpl.
  apply lookup_set_cell_same.
  rewrite Forall_forall in Ha. exact (Ha r (in_combine_l _ _ _ _ Hin)).
Qed.

Lemma column_values_set_other (df : DataFrame) (name c : string) (values : list Cell) :
  aligned df -> length values = nrows df -> c <> name ->
  column_values (set_column df name values) c = column_values df c.
Proof.
  unfold aligned, nrows, column_values, set_column. simpl. intros Ha Hl Hne.
  rewrite map_map.
  rewrite <- (map_fst_combine (rows df) values) at 2 by (symmetry; exact Hl).
  rewrite map_map.
  apply map_ext_in. intros [r v] Hin. simpl.
  apply lookup_set_cell_other; [|exact Hne].
  rewrite Forall_forall in Ha. exact (Ha r (in_combine_l _ _ _ _ Hin)).
Qed.

Lemma mem_set_columns (cols : list string) (name c : string) :
  mem c cols = true -> mem c (set_columns cols name) = true.
Proof.
  unfold set_columns. destruct (col_index name cols); [trivial|].
  unfold mem. rewrite existsb_app. intros ->. reflexivity.
Qed.

Lemma set_columns_mem (cols : list string) (name : string) :
  mem name cols = true -> set_columns cols name = cols.
Proof.
  intros H. destruct (col_index_mem _ _ H) as [i Hi].
  unfold set_columns. rewrite Hi. reflexivity.
Qed.

Lemma chunks_fuel_concat (A : Type) (n : nat) (l : list A) (fuel : nat) :
  1 <= n -> length l <= fuel -> List.concat (chunks_fuel fuel n l) = l.
Proof.
  intros Hn. revert l. induction fuel as [|f IH]; intros l Hl; simpl.
  - destruct l; [reflexivity|simpl in Hl; lia].
  - destruct l as [|x r]; [reflexivity|].
    simpl List.concat. rewrite IH.
    + apply firstn_skipn.
    + rewrite length_skipn. simpl in Hl. simpl length. lia.
Qed.

Lemma chunks_fuel_nonempty (A : Type) (n : nat) (l : list A) (fuel : nat) :
  1 <= n -> Forall (fun c => 1 <= length c <= n) (chunks_fuel fuel n l).
Proof.
  intros Hn. revert l. induction fuel as [|f IH]; intros l; simpl; [constructor|].
  destruct l as [|x r]; [constructor|].
  constructor; [|apply IH].
  rewrite length_firstn. simpl length. lia.
Qed.

(** The reads of the reader, put end to end, are the lines of the file. *)
Lemma read_chunks_concat (n : nat) (lines : list Line) :
  1 <= n -> List.concat (read_chunks n lines) = lines.
Proof.
  intros Hn. destruct lines as [|l r]; [reflexivity|].
  unfold read_chunks, chunks_of. apply chunks_fuel_concat; [exact Hn|lia].
Qed.

Lemma read_chunks_not_nil (n : nat) (lines : list Line) :
  1 <= n -> read_chunks n lines <> [].
Proof.
  intros Hn. destruct lines as [|l r]; [discriminate|].
  unfold read_chunks, chunks_of. simpl. discriminate.
Qed.

(** Only the single read of a file without rows is empty. *)
Lemma read_chunks_sizes (n : nat) (lines : list Line) :
  1 <= n -> lines <> [] ->
  Forall (fun c => 1 <= length c <= n) (read_chunks n lines).
Proof.
  intros Hn Hl. destruct lines as [|l r]; [congruence|].
  unfold read_chunks, chunks_of. apply chunks_fuel_nonempty. exact Hn.
Qed.

Lemma table_width_header (hdr : list string) (lines : list Line) :
  length hdr <= table_width hdr lines.
Proof. destruct lines; simpl; lia. Qed.

(** The first line after the header is never rejected. *)
Lemma first_line_fits (hdr : list string) (l : Line) (r : list Line) :
  rejected (table_width hdr (l :: r)) l = false.
Proof. unfold rejected. simpl. apply Nat.ltb_ge. lia. Qed.

Lemma length_pad (n : nat) (fields : list Field) :
  length fields <= n -> length (pad n fields) = n.
Proof. intros H. unfold pad. rewrite length_app, repeat_length. lia. Qed.

Lemma length_row_fields (hdr : list string) (width : nat) (l : Line) :
  length hdr <= width -> rejected width l = false ->
  length (row_fields hdr width l) = length hdr.
Proof.
  unfold rejected, row_fields. intros Hw Hl. apply Nat.ltb_ge in Hl.
  rewrite length_skipn, length_pad by exact Hl. lia.
Qed.

(** A read that is tokenized has every line, filled to the expected number
    of fields; none of its lines is rejected. *)
Lemma tokenize_inv (width k : nat) (lines : list Line) (rs : list (list Field)) :
  tokenize width k lines = Ok rs ->
  rs = map (pad width) lines /\ existsb (rejected width) lines = false.
Proof.
  revert k rs. induction lines as [|l r IH]; intros k rs; simpl.
  - intros [= <-]. split; reflexivity.
  - unfold rejected at 1.
    destruct (width <? length l) eqn:Hlen; [discriminate|].
    destruct (tokenize width (S k) r) as [rs'|e] eqn:Ht; simpl; [|discriminate].
    intros [= <-]. destruct (IH _ _ Ht) as [-> Hall].
    split; [reflexivity|exact Hall].
Qed.

Lemma tokenize_ok (width k : nat) (lines : list Line) :
  existsb (rejected width) lines = false ->
  tokenize width k lines = Ok (map (pad width) lines).
Proof.
  revert k. induction lines as [|l r IH]; intros k; simpl; [reflexivity|].
  intros H. apply orb_false_iff in H. destruct H as [Hl Hr].
  unfold rejected in Hl. rewrite Hl, (IH _ Hr). reflexivity.
Qed.

(** The tokenizer raises for the first line that has too many fields, and
    its exception names the expected number of fields, the number of the
    line in the file and the number of fields of the line. *)
Lemma tokenize_err (width k : nat) (lines : list Line) :
  existsb (rejected width) lines = true ->
  exists before l rest,
    lines = before ++ l :: rest
    /\ existsb (rejected width) before = false
    /\ rejected width l = true
    /\ tokenize width k lines = Err (ParserError width (k + length before) (length l)).
Proof.
  revert k. induction lines as [|l r IH]; intros k; simpl; [discriminate|].
  destruct (rejected width l) eqn:Hl.
  - intros _. exists [], l, r. simpl. rewrite Nat.add_0_r.
    unfold rejected in Hl. rewrite Hl. auto.
  - simpl. intros Hr.
    destruct (IH (S k) Hr) as (before & l' & rest & -> & Hb & Hl' & Ht).
    exists (l :: before), l', rest. simpl. rewrite Hl, Hb.
    unfold rejected in Hl. rewrite Hl, Ht. simpl.
    repeat split; try assumption. do 2 f_equal. lia.
Qed.

Lemma tokenize_rejected (width k : nat) (lines : list Line) :
  existsb (rejected width) lines = true ->
  exists e, tokenize width k lines = Err e.
Proof.
  intros H. destruct (tokenize_err width k lines H) as (b & l & r & _ & _ & _ & Ht).
  eauto.
Qed.

Lemma length_convert_row (rs : list (list Field)) (row : list Field) :
  length (convert_row rs row) = length row.
Proof.
  unfold convert_row. rewrite length_map, length_combine, length_seq. lia.
Qed.

Lemma nth_map_indexed (A B : Type) (g : nat * A -> B) (d : B) (e : A)
    (row : list A) (start j : nat) :
  j < length row ->
  nth j (map g (combine (seq start (length row)) row)) d = g (start + j, nth j row e).
Proof.
  revert start j. induction row as [|x r IH]; intros start j; simpl; [lia|].
  destruct j as [|j]; intros Hj.
  - rewrite Nat.add_0_r. reflexivity.
  - rewrite IH by lia. do 2 f_equal. lia.
Qed.

Lemma nth_convert_row (rs : list (list Field)) (row : list Field) (j : nat) :
  j < length row ->
  nth j (convert_row rs row) NaN
  = convert (read_as_strings (field_column j rs)) (nth j row Empty).
Proof.
  intros Hj. unfold convert_row.
  rewrite (nth_map_indexed _ NaN Empty row 0 Hj). reflexivity.
Qed.

(** A column of a read that is tokenized: the fields under its label in the
    lines of the read, typed together. *)
Lemma typed_rows_column (hdr : list string) (width : nat) (lines : list Line)
    (name : string) (j : nat) :
  length hdr <= width ->
  existsb (rejected width) lines = false ->
  col_index name hdr = Some j ->
  map (fun r => nth j r NaN) (typed_rows hdr width lines)
  = typed_column (chunk_column hdr width lines name).
Proof.
  intros Hw Hfit Hj.
  assert (Hcol : field_column j (map (row_fields hdr width) lines)
                 = chunk_column hdr width lines name).
  { unfold field_column, chunk_column, field_of. rewrite map_map, Hj. reflexivity. }
  unfold typed_rows, convert_rows, typed_column.
  rewrite map_map, <- Hcol. unfold field_column at 2. rewrite !map_map.
  apply map_ext_in. intros l Hin.
  apply nth_convert_row.
  rewrite length_row_fields; [exact (col_index_lt _ _ Hj)|exact Hw|].
  destruct (rejected width l) eqn:E; [|reflexivity].
  assert (existsb (rejected width) lines = true)
    by (apply existsb_exists; eauto).
  congruence.
Qed.

Lemma typed_rows_aligned (hdr : list string) (width : nat) (lines : list Line) :
  length hdr <= width ->
  existsb (rejected width) lines = false ->
  aligned {| columns := hdr; rows := typed_rows hdr width lines |}.
Proof.
  intros Hw Hfit. unfold aligned, typed_rows, convert_rows. simpl.
  apply Forall_forall. intros row Hin.
  apply in_map_iff in Hin. destruct Hin as (r & <- & Hin).
  apply in_map_iff in Hin. destruct Hin as (l & <- & Hin).
  rewrite length_convert_row. apply length_row_fields; [exact Hw|].
  destruct (rejected width l) eqn:E; [|reflexivity].
  assert (existsb (rejected width) lines = true)
    by (apply existsb_exists; eauto).
  congruence.
Qed.

(** A read whose lines are tokenized is the frame of its typed rows. *)
Lemma read_chunk_ok (hdr : list string) (width k : nat) (lines : list Line) :
  existsb (rejected width) lines = false ->
  read_chunk hdr width k lines
  = Ok {| columns := hdr; rows := typed_rows hdr width lines |}.
Proof.
  intros H. unfold read_chunk. rewrite (@tokenize_ok width k lines H). simpl.
  unfold typed_rows, row_fields. rewrite map_map. reflexivity.
Qed.

Lemma read_chunk_inv (hdr : list string) (width k : nat) (lines : list Line)
    (chunk : DataFrame) :
  read_chunk hdr width k lines = Ok chunk ->
  existsb (rejected width) lines = false
  /\ chunk = {| columns := hdr; rows := typed_rows hdr width lines |}.
Proof.
  unfold read_chunk.
  destruct (tokenize width k lines) as [rs|e] eqn:Ht; simpl; [|discriminate].
  destruct (tokenize_inv _ _ _ Ht) as [-> Hfit].
  intros [= <-]. split; [exact Hfit|].
  unfold typed_rows, row_fields. rewrite map_map. reflexivity.
Qed.

Lemma typed_rows_values (hdr : list string) (width : nat) (lines : list Line)
    (name : string) :
  length hdr <= width ->
  existsb (rejected width) lines = false ->
  mem name hdr = true ->
  column_values {| columns := hdr; rows := typed_rows hdr width lines |} name
  = typed_column (chunk_column hdr width lines name).
Proof.
  intros Hw Hfit Hm. destruct (col_index_mem _ _ Hm) as [j Hj].
  rewrite <- (@typed_rows_column hdr width lines name j Hw Hfit Hj).
  unfold column_values, lookup_cell. simpl. rewrite Hj. reflexivity.
Qed.

(** Typing a column keeps the text of every field. *)
Lemma typed_column_text (col : list Field) :
  map cell_text (typed_column col) = map field_text col.
Proof.
  unfold typed_column. rewrite map_map. apply map_ext.
  intros [|s|s|s]; simpl; try reflexivity; destruct (read_as_strings col); reflexivity.
Qed.

Lemma length_typed_column (col : list Field) :
  length (typed_column col) = length col.
Proof. apply length_map. Qed.

Lemma existsb_map_comp (A B : Type) (p : B -> bool) (g : A -> B) (l : list A) :
  existsb p (map g l) = existsb (fun x => p (g x)) l.
Proof. induction l as [|x r IH]; simpl; [reflexivity|]. rewrite IH. reflexivity. Qed.

(** A typed column holds a string exactly when it was read as strings. *)
Lemma typed_column_has_str (col : list Field) :
  existsb is_str (typed_column col) = read_as_strings col.
Proof.
  unfold typed_column, read_as_strings.
  destruct (forallb is_number_or_empty col) eqn:Hn; simpl.
  - rewrite existsb_map_comp.
    destruct (existsb _ col) eqn:E; [|reflexivity].
    apply existsb_exists in E. destruct E as (f & Hin & Hf).
    rewrite forallb_forall in Hn. specialize (Hn f Hin).
    destruct f; simpl in *; discriminate.
  - destruct (forallb is_truth_or_empty col) eqn:Ht; simpl.
    + rewrite existsb_map_comp.
      destruct (existsb _ col) eqn:E; [|reflexivity].
      apply existsb_exists in E. destruct E as (f & Hin & Hf).
      rewrite forallb_forall in Ht. specialize (Ht f Hin).
      destruct f; simpl in *; discriminate.
    + rewrite existsb_map_comp. apply existsb_exists.
      assert (Hex : exists f, In f col /\ is_number_or_empty f = false).
      { clear Ht. induction col as [|f r IH]; simpl in Hn; [discriminate|].
        destruct (is_number_or_empty f) eqn:E.
        - destruct (IH Hn) as (g & Hg & Hgf). exists g. split; [right|]; assumption.
        - exists f. split; [left; reflexivity|exact E]. }
      assert (Hex2 : exists f, In f col /\ is_truth_or_empty f = false).
      { clear Hn Hex. induction col as [|f r IH]; simpl in Ht; [discriminate|].
        destruct (is_truth_or_empty f) eqn:E.
        - destruct (IH Ht) as (g & Hg & Hgf). exists g. split; [right|]; assumption.
        - exists f. split; [left; reflexivity|exact E]. }
      destruct Hex as (f & Hin & Hf).
      destruct f as [|s|s|s]; simpl in Hf; try discriminate.
      * exists (Truth s). split; [exact Hin|reflexivity].
      * exists (Text s). split; [exact Hin|reflexivity].
Qed.

(** The [.str] accessor on a typed column. *)
Lemma str_accessor_typed (col : list Field) :
  str_accessor (typed_column col)
  = match col with
    | [] => Ok []
    | _ => if read_as_strings col then Ok (typed_column col)
           else Err (AttributeError "Can only use .str accessor with string values!")
    end.
Proof.
  destruct col as [|f r]; [reflexivity|].
  pose proof (typed_column_has_str (f :: r)) as H.
  unfold str_accessor.
  destruct (typed_column (f :: r)) as [|c cs] eqn:E; [discriminate|].
  rewrite H. reflexivity.
Qed.

Lemma str_accessor_same (col strings : list Cell) :
  str_accessor col = Ok strings -> strings = col.
Proof.
  destruct col as [|c r]; simpl; [congruence|].
  destruct (is_str c || existsb is_str r); [congruence|discriminate].
Qed.

Section PipelineLemmas.
Context {U : Unicode} {W : World}.

Lemma to_datetime_length (col ts : list Cell) :
  to_datetime col = Ok ts -> length ts = length col.
Proof.
  unfold to_datetime. destruct col as [|c r]; [intros [= <-]; reflexivity|].
  destruct (parse_datetimes (c :: r)) as [stamp|e]; cbn [bind]; [|discriminate].
  intros [= <-]. simpl. rewrite length_map, length_seq. reflexivity.
Qed.

Lemma normalize_column_inv (col out : list Cell) :
  normalize_column col = Ok out ->
  out = map clean_text_cell col /\ is_ok (str_accessor col) = true.
Proof.
  unfold normalize_column.
  destruct (str_accessor col) as [strings|e] eqn:Hs; simpl; [|discriminate].
  intros [= <-]. rewrite (str_accessor_same _ Hs). split; reflexivity.
Qed.

Lemma normalize_column_ok (col : list Cell) :
  is_ok (str_accessor col) = true ->
  normalize_column col = Ok (map clean_text_cell col).
Proof.
  unfold normalize_column.
  destruct (str_accessor col) as [strings|e] eqn:Hs; simpl; [|discriminate].
  intros _. rewrite (str_accessor_same _ Hs). reflexivity.
Qed.

(** What the two assignments of lines 90-91 make of a chunk, column by
    column, and what they need of it. *)
Lemma process_chunk_inv (chunk chunk' : DataFrame) :
  aligned chunk ->
  process_chunk chunk = Ok chunk' ->
  columns chunk' = processed_columns (columns chunk)
  /\ nrows chunk' = nrows chunk
  /\ aligned chunk'
  /\ mem "created_at" (columns chunk) = true
  /\ mem "text" (columns chunk) = true
  /\ is_ok (to_datetime (column_values chunk "created_at")) = true
  /\ is_ok (str_accessor (column_values chunk "text")) = true
  /\ (forall c, c <> "created_at" -> c <> "clean_text" ->
        column_values chunk' c = column_values chunk c)
  /\ column_values chunk' "clean_text"
     = map clean_text_cell (column_values chunk "text").
Proof.
  intros Ha. unfold process_chunk.
  destruct (get_column chunk "created_at") as [created|] eqn:Hc; simpl; [|discriminate].
  pose proof (get_column_ok_mem _ _ Hc) as Hmc.
  rewrite (get_column_values _ _ Hc).
  destruct (to_datetime (column_values chunk "created_at")) as [times|] eqn:Ht;
    simpl; [|discriminate].
  assert (Hlt : length times = nrows chunk).
  { rewrite (to_datetime_length _ Ht). apply column_values_length. }
  set (chunk1 := set_column chunk "created_at" times).
  assert (Ha1 : aligned chunk1) by (apply set_column_aligned; exact Ha).
  assert (Hn1 : nrows chunk1 = nrows chunk) by (apply set_column_nrows; exact Hlt).
  destruct (get_column chunk1 "text") as [text|] eqn:Hx; simpl; [|discriminate].
  pose proof (get_column_ok_mem _ _ Hx) as Hmt1.
  rewrite (get_column_values _ _ Hx).
  assert (Htext : column_values chunk1 "text" = column_values chunk "text").
  { apply column_values_set_other; [exact Ha|exact Hlt|discriminate]. }
  rewrite Htext.
  destruct (normalize_column (column_values chunk "text")) as [cleaned|] eqn:Hn;
    simpl; [|discriminate].
  destruct (normalize_column_inv _ Hn) as [-> Hacc].
  intros [= <-].
  assert (Hlc : length (map clean_text_cell (column_values chunk "text")) = nrows chunk1).
  { rewrite length_map, column_values_length. symmetry. exact Hn1. }
  assert (Hmt : mem "text" (columns chunk) = true).
  { unfold chunk1, set_column in Hmt1. simpl in Hmt1.
    rewrite (set_columns_mem _ _ Hmc) in Hmt1. exact Hmt1. }
  repeat split.
  - rewrite set_column_nrows; [exact Hn1|exact Hlc].
  - apply set_column_aligned. exact Ha1.
  - exact Hmc.
  - exact Hmt.
  - exact Hacc.
  - intros c H1 H2.
    rewrite column_values_set_other by (exact Ha1 || exact Hlc || exact H2).
    apply column_values_set_other; [exact Ha|exact Hlt|exact H1].
  - apply column_values_set_same; [exact Ha1|exact Hlc].
Qed.

Lemma process_chunk_ok (chunk : DataFrame) :
  aligned chunk ->
  mem "created_at" (columns chunk) = true ->
  mem "text" (columns chunk) = true ->
  is_ok (to_datetime (column_values chunk "created_at")) = true ->
  is_ok (str_accessor (column_values chunk "text")) = true ->
  exists chunk', process_chunk chunk = Ok chunk'.
Proof.
  intros Ha Hmc Hmt Hd Hs. unfold process_chunk.
  rewrite (get_column_mem _ _ Hmc). simpl.
  destruct (to_datetime (column_values chunk "created_at")) as [times|] eqn:Ht;
    [|discriminate].
  simpl.
  assert (Hlt : length times = nrows chunk).
  { rewrite (to_datetime_length _ Ht). apply column_values_length. }
  rewrite get_column_mem.
  2:{ unfold set_column. simpl. apply mem_set_columns. exact Hmt. }
  simpl.
  rewrite column_values_set_other by (exact Ha || exact Hlt || discriminate).
  rewrite (normalize_column_ok _ Hs). simpl. eauto.
Qed.

(** The two assignments keep the number of rows of a chunk and give it the
    labels of a processed frame, whatever its rows. *)
Lemma process_chunk_nrows (chunk chunk' : DataFrame) :
  process_chunk chunk = Ok chunk' -> nrows chunk' = nrows chunk.
Proof.
  unfold process_chunk.
  destruct (get_column chunk "created_at") as [created|] eqn:Hc; simpl; [|discriminate].
  destruct (to_datetime created) as [times|] eqn:Ht; simpl; [|discriminate].
  assert (H1 : nrows (set_column chunk "created_at" times) = nrows chunk).
  { apply set_column_nrows.
    rewrite (to_datetime_length _ Ht). exact (get_column_length _ _ Hc). }
  destruct (get_column (set_column chunk "created_at" times) "text") as [text|] eqn:Hx;
    simpl; [|discriminate].
  destruct (normalize_column text) as [cleaned|] eqn:Hs; simpl; [|discriminate].
  destruct (normalize_column_inv _ Hs) as [-> _].
  intros [= <-]. rewrite set_column_nrows; [exact H1|].
  rewrite length_map. exact (get_column_length _ _ Hx).
Qed.

Lemma process_chunk_columns (chunk chunk' : DataFrame) :
  process_chunk chunk = Ok chunk' ->
  columns chunk' = processed_columns (columns chunk).
Proof.
  unfold process_chunk.
  destruct (get_column chunk "created_at") as [created|]; simpl; [|discriminate].
  destruct (to_datetime created) as [times|]; simpl; [|discriminate].
  destruct (get_column (set_column chunk "created_at" times) "text") as [text|];
    simpl; [|discriminate].
  destruct (normalize_column text) as [cleaned|]; simpl; [|discriminate].
  intros [= <-]. reflexivity.
Qed.

Lemma read_process_nrows (hdr : list string) (width k : nat) (lines : list Line)
    (chunk : DataFrame) :
  (c <- read_chunk hdr width k lines ;; process_chunk c) = Ok chunk ->
  nrows chunk = length lines.
Proof.
  destruct (read_chunk hdr width k lines) as [c|] eqn:Hr; simpl; [|discriminate].
  destruct (read_chunk_inv _ _ _ _ Hr) as [_ ->].
  intros H. rewrite (process_chunk_nrows _ H).
  unfold nrows, typed_rows, convert_rows. simpl. rewrite !length_map. reflexivity.
Qed.

Lemma read_process_columns (hdr : list string) (width k : nat) (lines : list Line)
    (chunk : DataFrame) :
  (c <- read_chunk hdr width k lines ;; process_chunk c) = Ok chunk ->
  columns chunk = processed_columns hdr.
Proof.
  destruct (read_chunk hdr width k lines) as [c|] eqn:Hr; simpl; [|discriminate].
  destruct (read_chunk_inv _ _ _ _ Hr) as [_ ->].
  intros H. apply process_chunk_columns in H. exact H.
Qed.

(** The normalized texts of a column of strings. *)
Lemma clean_typed_column (col : list Field) :
  is_ok (str_accessor (typed_column col)) = true ->
  map clean_text_cell (typed_column col) = map normalized col.
Proof.
  rewrite str_accessor_typed.
  destruct col as [|f r]; [reflexivity|].
  destruct (read_as_strings (f :: r)) eqn:E; [|discriminate].
  intros _. unfold typed_column. rewrite E, map_map.
  apply map_ext. intros [|s|s|s]; reflexivity.
Qed.

(** A read that is processed: the frame holds its lines, processed, and the
    read was processable. *)
Lemma read_process_inv (hdr : list string) (width k : nat) (lines : list Line)
    (chunk : DataFrame) :
  length hdr <= width ->
  (c <- read_chunk hdr width k lines ;; process_chunk c) = Ok chunk ->
  processed_from hdr width lines chunk /\ processable hdr width lines = true.
Proof.
  intros Hw.
  destruct (read_chunk hdr width k lines) as [c|] eqn:Hr; simpl; [|discriminate].
  destruct (read_chunk_inv _ _ _ _ Hr) as [Hfit ->].
  intros H.
  pose proof (typed_rows_aligned hdr lines Hw Hfit) as Ha.
  destruct (process_chunk_inv Ha H) as (Hcols & Hn & Ha' & Hmc & Hmt & Hd & Hs & Hpass & Hclean).
  cbn [columns] in Hmc, Hmt, Hcols.
  rewrite (typed_rows_values _ lines _ Hw Hfit Hmc) in Hd.
  rewrite (typed_rows_values _ lines _ Hw Hfit Hmt) in Hs, Hclean.
  split.
  - unfold processed_from. repeat split.
    + exact Hcols.
    + rewrite Hn. unfold nrows, typed_rows, convert_rows. simpl.
      rewrite !length_map. reflexivity.
    + exact Ha'.
    + intros name Hm H1 H2. rewrite (Hpass name H1 H2).
      rewrite (typed_rows_values _ lines _ Hw Hfit Hm). apply typed_column_text.
    + rewrite Hclean. apply clean_typed_column. exact Hs.
  - unfold processable. rewrite Hmc, Hmt, Hfit, Hd. simpl.
    rewrite str_accessor_typed in Hs.
    destruct lines as [|l r]; [reflexivity|].
    cbn [chunk_column map] in Hs |- *.
    destruct (read_as_strings _); [reflexivity|discriminate].
Qed.

Lemma processable_inv (hdr : list string) (width : nat) (lines : list Line) :
  processable hdr width lines = true ->
  mem "created_at" hdr = true /\ mem "text" hdr = true
  /\ existsb (rejected width) lines = false
  /\ is_ok (to_datetime (typed_column (chunk_column hdr width lines "created_at"))) = true
  /\ is_ok (str_accessor (typed_column (chunk_column hdr width lines "text"))) = true.
Proof.
  unfold processable. intros H.
  apply andb_true_iff in H. destruct H as [H Hs].
  apply andb_true_iff in H. destruct H as [H Hd].
  apply andb_true_iff in H. destruct H as [H Hfit].
  apply andb_true_iff in H. destruct H as [Hmc Hmt].
  apply negb_true_iff in Hfit.
  repeat split; try assumption.
  rewrite str_accessor_typed.
  destruct lines as [|l r]; [reflexivity|].
  cbn [chunk_column map] in Hs |- *. rewrite Hs. reflexivity.
Qed.

(** A processable read is read and processed. *)
Lemma read_process_ok (hdr : list string) (width k : nat) (lines : list Line) :
  length hdr <= width ->
  processable hdr width lines = true ->
  exists chunk, (c <- read_chunk hdr width k lines ;; process_chunk c) = Ok chunk.
Proof.
  intros Hw Hp.
  destruct (processable_inv _ _ _ Hp) as (Hmc & Hmt & Hfit & Hd & Hs).
  rewrite (@read_chunk_ok hdr width k lines Hfit). simpl.
  apply process_chunk_ok.
  - exact (typed_rows_aligned hdr lines Hw Hfit).
  - exact Hmc.
  - exact Hmt.
  - rewrite (typed_rows_values _ lines _ Hw Hfit Hmc). exact Hd.
  - rewrite (typed_rows_values _ lines _ Hw Hfit Hmt). exact Hs.
Qed.

(** The exception of the library when it parses a read is the exception of
    the read. *)
Lemma read_process_parse_error (hdr : list string) (width k : nat)
    (lines : list Line) (e : Exception) :
  length hdr <= width ->
  mem "created_at" hdr = true ->
  parse_error hdr width k lines = Some e ->
  (c <- read_chunk hdr width k lines ;; process_chunk c) = Err e.
Proof.
  intros Hw Hmc. unfold parse_error.
  destruct (tokenize width k lines) as [rs|e'] eqn:Ht.
  - destruct (tokenize_inv _ _ _ Ht) as [_ Hfit].
    rewrite (@read_chunk_ok hdr width k lines Hfit). cbn [bind].
    destruct (to_datetime _) as [ts|e'] eqn:Hd; [discriminate|].
    intros [= ->]. unfold process_chunk.
    rewrite (@get_column_mem {| columns := hdr; rows := typed_rows hdr width lines |}
               "created_at" Hmc).
    cbn [bind].
    rewrite (typed_rows_values _ lines _ Hw Hfit Hmc), Hd. reflexivity.
  - intros [= ->]. unfold read_chunk. rewrite Ht. reflexivity.
Qed.

Lemma processable_no_parse_error (hdr : list string) (width k : nat)
    (lines : list Line) :
  processable hdr width lines = true -> parse_error hdr width k lines = None.
Proof.
  intros Hp. destruct (processable_inv _ _ _ Hp) as (_ & _ & Hfit & Hd & _).
  unfold parse_error. rewrite (@tokenize_ok width k lines Hfit).
  destruct (to_datetime _); [reflexivity|discriminate].
Qed.

End PipelineLemmas.

(* ================================================================== *)
(** * Lemmas: assembling the chunks *)
(* ================================================================== *)

Lemma flat_map_nrows (g : DataFrame -> list (list Cell)) (dfs : list DataFrame) :
  (forall df, length (g df) = nrows df) ->
  length (flat_map g dfs) = list_sum (map nrows dfs).
Proof.
  intros Hg. induction dfs as [|d ds IH]; simpl; [reflexivity|].
  rewrite length_app, Hg, IH. reflexivity.
Qed.

(** The assembled table has the rows of all the frames, whichever way the
    labels are reconciled. *)
Lemma concat_nrows (dfs : list DataFrame) (table : DataFrame) :
  concat dfs = Ok table -> nrows table = list_sum (map nrows dfs).
Proof.
  destruct dfs as [|d ds]; [discriminate|]. unfold concat.
  destruct (forallb _ ds); intros [= <-].
  - exact (flat_map_nrows rows (d :: ds) (fun _ => eq_refl)).
  - apply (flat_map_nrows (reindex (union_columns (d :: ds))) (d :: ds)).
    intros df. unfold reindex. apply length_map.
Qed.

(** Frames with the same labels are put end to end. *)
Lemma concat_same_columns (cols : list string) (dfs : list DataFrame) :
  dfs <> [] ->
  Forall (fun c => columns c = cols) dfs ->
  concat dfs = Ok {| columns := cols; rows := flat_map rows dfs |}.
Proof.
  destruct dfs as [|d ds]; [congruence|]. intros _ Hall.
  inversion Hall as [|? ? Hd Hds]; subst.
  unfold concat.
  replace (forallb _ ds) with true; [reflexivity|].
  symmetry. apply forallb_forall. intros x Hx.
  rewrite Forall_forall in Hds. rewrite (Hds x Hx).
  unfold labels_eqb. destruct (list_eq_dec string_dec _ _); congruence.
Qed.

Lemma concat_columns (cols : list string) (dfs : list DataFrame) (table : DataFrame) :
  Forall (fun c => columns c = cols) dfs ->
  concat dfs = Ok table -> columns table = cols.
Proof.
  intros Hall. destruct dfs as [|d ds]; [discriminate|].
  rewrite (@concat_same_columns cols (d :: ds)) by (discriminate || exact Hall).
  intros [= <-]. reflexivity.
Qed.

Lemma flat_map_column_values (cols : list string) (dfs : list DataFrame)
    (name : string) :
  Forall (fun c => columns c = cols) dfs ->
  column_values {| columns := cols; rows := flat_map rows dfs |} name
  = flat_map (fun d => column_values d name) dfs.
Proof.
  unfold column_values. cbn [columns rows].
  induction 1 as [|d ds Hd Hds IH]; simpl; [reflexivity|].
  rewrite map_app, IH, Hd. reflexivity.
Qed.

Lemma chunk_column_concat (hdr : list string) (width : nat)
    (pending : list (list Line)) (name : string) :
  chunk_column hdr width (List.concat pending) name
  = flat_map (fun lines => chunk_column hdr width lines name) pending.
Proof.
  unfold chunk_column. induction pending as [|l r IH]; simpl; [reflexivity|].
  rewrite map_app, IH. reflexivity.
Qed.

Lemma map_flat_map (A B C : Type) (g : B -> C) (h : A -> list B) (l : list A) :
  map g (flat_map h l) = flat_map (fun x => map g (h x)) l.
Proof.
  induction l as [|x r IH]; simpl; [reflexivity|].
  rewrite map_app, IH. reflexivity.
Qed.

Lemma flat_map_Forall2 (A B C : Type) (g : A -> list C) (h : B -> list C)
    (l : list A) (l' : list B) :
  Forall2 (fun x y => g x = h y) l l' -> flat_map g l = flat_map h l'.
Proof.
  induction 1 as [|x y r r' Hxy Hr IH]; simpl; [reflexivity|].
  rewrite Hxy, IH. reflexivity.
Qed.

Section AssemblyLemmas.
Context {U : Unicode}.

(** Processed reads, assembled, are the lines of the reads, processed, in
    the order of the reads. *)
Lemma concat_processed_from (hdr : list string) (width : nat)
    (pending : list (list Line)) (news : list DataFrame) (table : DataFrame) :
  Forall2 (processed_from hdr width) pending news ->
  concat news = Ok table ->
  processed_from hdr width (List.concat pending) table.
Proof.
  intros Hall Hcat.
  assert (Hcols : Forall (fun c => columns c = processed_columns hdr) news).
  { clear Hcat. induction Hall as [|l d r ds Hd Hr IH]; constructor; [|exact IH].
    exact (proj1 Hd). }
  assert (Hne : news <> []) by (intros ->; discriminate).
  rewrite (concat_same_columns Hne Hcols) in Hcat. injection Hcat as <-.
  unfold processed_from. repeat split.
  - unfold nrows. cbn [rows].
    rewrite (flat_map_nrows rows news (fun _ => eq_refl)).
    clear Hcols Hne. induction Hall as [|l d r ds Hd Hr IH]; simpl; [reflexivity|].
    rewrite length_app, IH. destruct Hd as (_ & -> & _). reflexivity.
  - unfold aligned. cbn [columns rows].
    clear Hne. induction Hall as [|l d r ds Hd Hr IH]; simpl; [constructor|].
    inversion Hcols as [|? ? Hc Hcs]; subst.
    apply Forall_app. split; [|exact (IH Hcs)].
    destruct Hd as (_ & _ & Ha & _). unfold aligned in Ha. rewrite Hc in Ha. exact Ha.
  - intros name Hm H1 H2.
    rewrite (flat_map_column_values name Hcols), chunk_column_concat, !map_flat_map.
    symmetry. apply flat_map_Forall2.
    eapply Forall2_impl; [|exact Hall].
    intros l d (_ & _ & _ & Hpass & _). symmetry. exact (Hpass name Hm H1 H2).
  - rewrite (flat_map_column_values "clean_text" Hcols), chunk_column_concat,
      map_flat_map.
    symmetry. apply flat_map_Forall2.
    eapply Forall2_impl; [|exact Hall].
    intros l d (_ & _ & _ & _ & Hclean). symmetry. exact Hclean.
Qed.

End AssemblyLemmas.

(* ================================================================== *)
(** * Lemmas: the progress reports *)
(* ================================================================== *)

Lemma progress_calls_index (i total : nat) (sizes : list nat) :
  map call_index (progress_calls i total sizes) = seq i (length sizes).
Proof.
  revert i total. induction sizes as [|n r IH]; intros i total; simpl; [reflexivity|].
  rewrite IH. reflexivity.
Qed.

Lemma progress_calls_rows (i total : nat) (sizes : list nat) :
  map call_rows (progress_calls i total sizes) = sizes.
Proof.
  revert i total. induction sizes as [|n r IH]; intros i total; simpl; [reflexivity|].
  rewrite IH. reflexivity.
Qed.

Lemma progress_calls_last_cons (r : list nat) (i total n d : nat) :
  last (map call_total (progress_calls i total (n :: r))) d
  = total + list_sum (n :: r).
Proof.
  revert i total n. induction r as [|m r IH]; intros i total n.
  - unfold call_total. simpl. lia.
  - transitivity (last (map call_total (progress_calls (S i) (total + n) (m :: r))) d).
    + reflexivity.
    + rewrite IH. simpl. lia.
Qed.

Lemma progress_calls_last (i total : nat) (sizes : list nat) :
  last (map call_total (progress_calls i total sizes)) total = total + list_sum sizes.
Proof.
  destruct sizes as [|n r]; [simpl; lia|apply progress_calls_last_cons].
Qed.

Lemma progress_calls_nth (sizes : list nat) (i total k : nat) (c : Call) :
  nth_error (progress_calls i total sizes) k = Some c ->
  c = (i + k, nth k sizes 0, total + list_sum (firstn (S k) sizes)).
Proof.
  revert i total k. induction sizes as [|n r IH]; intros i total k.
  - destruct k; discriminate.
  - destruct k as [|k]; cbn [progress_calls nth_error].
    + intros [= <-]. simpl. rewrite !Nat.add_0_r. reflexivity.
    + intros H. rewrite (IH _ _ _ H).
      change (firstn (S (S k)) (n :: r)) with (n :: firstn (S k) r).
      change (list_sum (n :: firstn (S k) r)) with (n + list_sum (firstn (S k) r)).
      cbn [nth]. f_equal; [f_equal; lia|lia].
Qed.

Lemma progress_calls_above (i total : nat) (sizes : list nat) :
  Forall (fun n => 1 <= n) sizes ->
  Forall (fun t => total < t) (map call_total (progress_calls i total sizes)).
Proof.
  intros H. revert i total.
  induction H as [|n r Hn Hr IH]; intros i total; simpl; constructor.
  - unfold call_total. simpl. lia.
  - eapply Forall_impl; [|apply IH]. simpl. intros t Ht. lia.
Qed.

(** With no empty chunk the running total grows at every report. *)
Lemma progress_calls_increasing (i total : nat) (sizes : list nat) :
  Forall (fun n => 1 <= n) sizes ->
  StronglySorted lt (map call_total (progress_calls i total sizes)).
Proof.
  intros H. revert i total.
  induction H as [|n r Hn Hr IH]; intros i total; simpl; constructor.
  - apply IH.
  - apply progress_calls_above. exact Hr.
Qed.

Lemma list_sum_lengths (A : Type) (ls : list (list A)) :
  list_sum (map (@length A) ls) = length (List.concat ls).
Proof.
  induction ls as [|l r IH]; simpl; [reflexivity|].
  rewrite length_app, IH. reflexivity.
Qed.

Lemma progress_calls_app (a b : list nat) (i total : nat) :
  progress_calls i total (a ++ b)
  = progress_calls i total a
    ++ progress_calls (i + length a) (total + list_sum a) b.
Proof.
  revert i total. induction a as [|n r IH]; intros i total; simpl.
  - rewrite !Nat.add_0_r. reflexivity.
  - rewrite IH. f_equal. f_equal. f_equal; lia.
Qed.

(* ================================================================== *)
(** * Lemmas: the loop *)
(* ================================================================== *)

Lemma count_chunk_zero (self : Processor) :
  {| chunk_size := chunk_size self;
     client := client self;
     processed_chunks := processed_chunks self + 0;
     total_rows := total_rows self + 0 |} = self.
Proof. destruct self. simpl. rewrite !Nat.add_0_r. reflexivity. Qed.

Lemma advance_count_chunk (self : Processor) (n a b : nat) :
  advance (count_chunk self n) a b = advance self (S a) (n + b).
Proof.
  unfold advance, count_chunk. simpl. f_equal; lia.
Qed.

Lemma advance_zero (self : Processor) : advance self 0 0 = self.
Proof. apply count_chunk_zero. Qed.

Lemma mem_header_not_nil (name : string) (hdr : list string) :
  mem name hdr = true -> hdr <> [].
Proof. destruct hdr; [discriminate|discriminate]. Qed.

Lemma returns_normally_quiet (callback_func : option Callback) (expected : list Call) :
  returns_normally callback_func -> quiet_on callback_func expected.
Proof.
  intros H g Hg. apply Forall_forall. intros c _. apply (H g Hg).
Qed.

Lemma forallb_Forall (A : Type) (p : A -> bool) (l : list A) :
  forallb p l = true -> Forall (fun x => p x = true) l.
Proof.
  intros H. apply Forall_forall. intros x Hin.
  rewrite forallb_forall in H. exact (H x Hin).
Qed.

Section LoopLemmas.
Context {U : Unicode} {W : World}.

Lemma chunk_loop_no_callback_calls (hdr : list string) (width : nat)
    (pending : list (list Line))
    (i k : nat) (self : Processor) (chunks : list DataFrame) (log : list Call) :
  calls (chunk_loop None hdr width i k pending self chunks log) = log.
Proof.
  revert i k self chunks. induction pending as [|lines rest IH]; intros i k self chunks;
    cbn [chunk_loop]; [reflexivity|].
  destruct (chunk <- read_chunk hdr width k lines ;; process_chunk chunk);
    [apply IH|reflexivity].
Qed.

(** Without a callback, what the loop returns does not depend on the
    processor or on the log. *)
Lemma chunk_loop_no_callback_returned (hdr : list string) (width : nat)
    (pending : list (list Line))
    (i k : nat) (self self' : Processor) (chunks : list DataFrame) (log log' : list Call) :
  returned (chunk_loop None hdr width i k pending self chunks log)
  = returned (chunk_loop None hdr width i k pending self' chunks log').
Proof.
  revert i k self self' chunks. induction pending as [|lines rest IH];
    intros i k self self' chunks; cbn [chunk_loop]; [reflexivity|].
  destruct (chunk <- read_chunk hdr width k lines ;; process_chunk chunk);
    [apply IH|reflexivity].
Qed.

Lemma process_with_chunks_no_callback_calls (self : Processor) (filepath : string) :
  calls (_process_with_chunks self filepath None) = [].
Proof.
  unfold _process_with_chunks.
  destruct (read_csv_chunked filepath (chunk_size self)) as [[[hdr width] pending]|e];
    [|reflexivity].
  apply chunk_loop_no_callback_calls.
Qed.

Lemma process_with_chunks_no_callback_returned (self self' : Processor)
    (filepath : string) :
  chunk_size self = chunk_size self' ->
  returned (_process_with_chunks self filepath None)
  = returned (_process_with_chunks self' filepath None).
Proof.
  intros Hc. unfold _process_with_chunks. rewrite Hc.
  destruct (read_csv_chunked filepath (chunk_size self')) as [[[hdr width] pending]|e];
    [|reflexivity].
  cbn [returned].
  rewrite (chunk_loop_no_callback_returned hdr width pending 0 2 self self' [] [] []).
  reflexivity.
Qed.

Lemma estimate_file_size_ok (self : Processor) (filepath : string) (info : FileInfo) :
  estimate_file_size self filepath = Ok info ->
  exists f, open_file filepath = Some f /\ file_size_bytes info = file_bytes f.
Proof.
  unfold estimate_file_size.
  destruct (open_file filepath) as [f|]; [|discriminate].
  destruct (read_csv_nrows filepath 1000) as [sample|e]; simpl; [|discriminate].
  destruct (memory_usage sample =? 0)%Z; [discriminate|].
  intros [= <-]. exists f. split; reflexivity.
Qed.

(** The chunked path reads the path only to open the file. *)
Lemma process_with_chunks_same_file (self : Processor) (p1 p2 : string)
    (callback_func : option Callback) (f : CsvFile) :
  open_file p1 = Some f -> open_file p2 = Some f ->
  _process_with_chunks self p1 callback_func = _process_with_chunks self p2 callback_func.
Proof.
  intros H1 H2. unfold _process_with_chunks, read_csv_chunked.
  rewrite H1, H2. reflexivity.
Qed.

Lemma chunk_loop_columns (callback_func : option Callback) (hdr : list string)
    (width : nat) (pending : list (list Line)) (i k : nat) (self : Processor)
    (chunks out : list DataFrame) (log : list Call) :
  Forall (fun c => columns c = processed_columns hdr) chunks ->
  returned (chunk_loop callback_func hdr width i k pending self chunks log) = Ok out ->
  Forall (fun c => columns c = processed_columns hdr) out.
Proof.
  revert i k self chunks log.
  induction pending as [|lines rest IH]; intros i k self chunks log Hall;
    cbn [chunk_loop].
  - intros [= <-]. exact Hall.
  - destruct (c <- read_chunk hdr width k lines ;; process_chunk c) as [chunk|e] eqn:Hrp;
      [|discriminate].
    assert (Hall' : Forall (fun c => columns c = processed_columns hdr) (chunks ++ [chunk])).
    { apply Forall_app. split; [exact Hall|].
      constructor; [exact (read_process_columns _ _ _ _ Hrp)|constructor]. }
    destruct callback_func as [g|]; [|apply IH; exact Hall'].
    destruct (g i (nrows chunk) (total_rows (count_chunk self (nrows chunk))));
      [discriminate|apply IH; exact Hall'].
Qed.

(** Whatever the file, a table the chunked path returns has the labels of
    the file and [clean_text], and no other. *)
Lemma process_with_chunks_columns (self : Processor) (filepath : string)
    (callback_func : option Callback) (f : CsvFile) (table : DataFrame) :
  open_file filepath = Some f ->
  returned (_process_with_chunks self filepath callback_func) = Ok table ->
  columns table = processed_columns (header f).
Proof.
  intros Hf. unfold _process_with_chunks, read_csv_chunked.
  destruct (chunk_size self <? 1)%Z; [discriminate|]. rewrite Hf.
  destruct (header f) as [|h hs] eqn:Hh; [discriminate|]. rewrite <- Hh.
  cbn [returned].
  destruct (returned (chunk_loop callback_func (header f) _ 0 2
              (read_chunks (Z.to_nat (chunk_size self)) (body f)) self [] []))
    as [chunks|e] eqn:Hloop; simpl; [|discriminate].
  apply concat_columns.
  eapply chunk_loop_columns; [|exact Hloop]. constructor.
Qed.

(** What the loop has done when it stops, however it stops: it has counted
    the first [n] chunks, and reported exactly those. *)
Lemma chunk_loop_accounting (callback_func : option Callback) (hdr : list string)
    (width : nat) (pending : list (list Line)) (i k : nat) (self : Processor)
    (chunks : list DataFrame) (log : list Call) :
  exists n,
    n <= length pending
    /\ after (chunk_loop callback_func hdr width i k pending self chunks log)
       = advance self n (list_sum (firstn n (map (@length Line) pending)))
    /\ calls (chunk_loop callback_func hdr width i k pending self chunks log)
       = log ++ match callback_func with
                | Some _ => progress_calls i (total_rows self)
                              (firstn n (map (@length Line) pending))
                | None => []
                end.
Proof.
  revert i k self chunks log.
  induction pending as [|lines rest IH]; intros i k self chunks log.
  - exists 0. simpl. rewrite advance_zero.
    destruct callback_func; rewrite app_nil_r; auto.
  - cbn [chunk_loop].
    destruct (c <- read_chunk hdr width k lines ;; process_chunk c) as [chunk|e] eqn:Hrp.
    2:{ exists 0. simpl. rewrite advance_zero.
        destruct callback_func; rewrite app_nil_r; auto with arith. }
    rewrite (read_process_nrows _ _ _ _ Hrp).
    destruct callback_func as [g|].
    + destruct (g i (length lines) (total_rows (count_chunk self (length lines)))).
      * exists 1. simpl. split; [lia|]. split; [|reflexivity].
        unfold advance, count_chunk. simpl. f_equal; lia.
      * destruct (IH (S i) (k + length lines) (count_chunk self (length lines))
                    (chunks ++ [chunk])
                    (log ++ [(i, length lines,
                              total_rows (count_chunk self (length lines)))]))
          as (n & Hn & Ha & Hc).
        exists (S n). rewrite Ha, Hc. split; [simpl; lia|].
        split; [apply advance_count_chunk|].
        rewrite <- app_assoc. reflexivity.
    + destruct (IH (S i) (k + length lines) (count_chunk self (length lines))
                  (chunks ++ [chunk]) log) as (n & Hn & Ha & Hc).
      exists (S n). rewrite Ha, Hc. split; [simpl; lia|].
      split; [apply advance_count_chunk|reflexivity].
Qed.

(** A loop that runs to its end has read every pending chunk and kept the
    rows of each. *)
Lemma chunk_loop_success (callback_func : option Callback) (hdr : list string)
    (width : nat) (pending : list (list Line)) (i k : nat) (self : Processor)
    (chunks out : list DataFrame) (log : list Call) :
  returned (chunk_loop callback_func hdr width i k pending self chunks log) = Ok out ->
  after (chunk_loop callback_func hdr width i k pending self chunks log)
  = advance self (length pending) (length (List.concat pending))
  /\ list_sum (map nrows out)
     = list_sum (map nrows chunks) + length (List.concat pending).
Proof.
  revert i k self chunks log.
  induction pending as [|lines rest IH]; intros i k self chunks log; cbn [chunk_loop].
  - intros [= <-]. simpl. rewrite advance_zero. split; [reflexivity|lia].
  - destruct (c <- read_chunk hdr width k lines ;; process_chunk c) as [chunk|e] eqn:Hrp;
      [|discriminate].
    pose proof (read_process_nrows _ _ _ _ Hrp) as Hn.
    assert (Hstep : forall log',
      returned (chunk_loop callback_func hdr width (S i) (k + length lines) rest
                  (count_chunk self (nrows chunk)) (chunks ++ [chunk]) log') = Ok out ->
      after (chunk_loop callback_func hdr width (S i) (k + length lines) rest
               (count_chunk self (nrows chunk)) (chunks ++ [chunk]) log')
      = advance self (length (lines :: rest)) (length (List.concat (lines :: rest)))
      /\ list_sum (map nrows out)
         = list_sum (map nrows chunks) + length (List.concat (lines :: rest))).
    { intros log' H. destruct (IH _ _ _ _ _ H) as [Ha Hs].
      rewrite Ha, Hs, advance_count_chunk, Hn.
      simpl. rewrite length_app, map_app, list_sum_app. simpl. rewrite Hn.
      split; [reflexivity|lia]. }
    destruct callback_func as [g|]; [|apply Hstep].
    destruct (g i (nrows chunk) (total_rows (count_chunk self (nrows chunk))));
      [discriminate|apply Hstep].
Qed.

(** A loop that runs to its end has appended the pending reads, processed,
    in their order; every one of them was processable. *)
Lemma chunk_loop_returned (callback_func : option Callback) (hdr : list string)
    (width : nat) (pending : list (list Line)) (i k : nat) (self : Processor)
    (chunks out : list DataFrame) (log : list Call) :
  length hdr <= width ->
  returned (chunk_loop callback_func hdr width i k pending self chunks log) = Ok out ->
  exists news,
    out = chunks ++ news
    /\ Forall2 (processed_from hdr width) pending news
    /\ Forall (fun lines => processable hdr width lines = true) pending.
Proof.
  intros Hw. revert i k self chunks log.
  induction pending as [|lines rest IH]; intros i k self chunks log; cbn [chunk_loop].
  - intros [= <-]. exists []. rewrite app_nil_r. repeat constructor.
  - destruct (c <- read_chunk hdr width k lines ;; process_chunk c) as [chunk|e] eqn:Hrp;
      [|discriminate].
    destruct (read_process_inv _ _ _ Hw Hrp) as [Hfrom Hp].
    assert (Hstep : forall log',
      returned (chunk_loop callback_func hdr width (S i) (k + length lines) rest
                  (count_chunk self (nrows chunk)) (chunks ++ [chunk]) log') = Ok out ->
      exists news,
        out = chunks ++ news
        /\ Forall2 (processed_from hdr width) (lines :: rest) news
        /\ Forall (fun lines => processable hdr width lines = true) (lines :: rest)).
    { intros log' H. destruct (IH _ _ _ _ _ H) as (news & -> & Hall & Hps).
      exists (chunk :: news). rewrite <- app_assoc.
      split; [reflexivity|]. split; constructor; assumption. }
    destruct callback_func as [g|]; [|apply Hstep].
    destruct (g i (nrows chunk) (total_rows (count_chunk self (nrows chunk))));
      [discriminate|apply Hstep].
Qed.

(** The loop over processable reads on which the callback returns goes on
    with the reads after them, from the processor, the accumulator and the
    log they leave. *)
Lemma chunk_loop_prefix (callback_func : option Callback) (hdr : list string)
    (width : nat) :
  length hdr <= width ->
  forall (good rest : list (list Line)) (i k : nat) (self : Processor)
         (chunks : list DataFrame) (log : list Call),
  Forall (fun lines => processable hdr width lines = true) good ->
  quiet_on callback_func
    (progress_calls i (total_rows self) (map (@length Line) good)) ->
  exists news,
    Forall2 (processed_from hdr width) good news
    /\ chunk_loop callback_func hdr width i k (good ++ rest) self chunks log
       = chunk_loop callback_func hdr width (i + length good)
           (k + length (List.concat good)) rest
           (advance self (length good) (length (List.concat good)))
           (chunks ++ news)
           (log ++ match callback_func with
                   | Some _ => progress_calls i (total_rows self) (map (@length Line) good)
                   | None => []
                   end).
Proof.
  intros Hw good rest.
  induction good as [|lines good IH]; intros i k self chunks log Hall Hq.
  - exists []. split; [constructor|].
    simpl. rewrite !Nat.add_0_r, advance_zero, app_nil_r.
    destruct callback_func; rewrite app_nil_r; reflexivity.
  - inversion Hall as [|? ? Hl Hgood]; subst.
    destruct (@read_process_ok _ _ hdr width k lines Hw Hl) as [chunk Hrp].
    destruct (read_process_inv _ _ _ Hw Hrp) as [Hfrom _].
    assert (Hn : nrows chunk = length lines) by exact (proj1 (proj2 Hfrom)).
    cbn [app chunk_loop]. rewrite Hrp, Hn.
    assert (Hq' : quiet_on callback_func
                    (progress_calls (S i) (total_rows (count_chunk self (length lines)))
                       (map (@length Line) good))).
    { intros g Hg. specialize (Hq g Hg). simpl in Hq.
      inversion Hq; subst. assumption. }
    assert (Hargs : forall log', exists news,
      Forall2 (processed_from hdr width) good news
      /\ chunk_loop callback_func hdr width (S i) (k + length lines) (good ++ rest)
           (count_chunk self (length lines)) (chunks ++ [chunk]) log'
         = chunk_loop callback_func hdr width (i + length (lines :: good))
             (k + length (List.concat (lines :: good))) rest
             (advance self (length (lines :: good)) (length (List.concat (lines :: good))))
             (chunks ++ chunk :: news)
             (log' ++ match callback_func with
                      | Some _ => progress_calls (S i) (total_rows self + length lines)
                                    (map (@length Line) good)
                      | None => []
                      end)).
    { intros log'.
      destruct (IH (S i) (k + length lines) (count_chunk self (length lines))
                  (chunks ++ [chunk]) log' Hgood Hq') as (news & Hnews & Heq).
      exists news. split; [exact Hnews|]. rewrite Heq.
      rewrite advance_count_chunk. simpl. rewrite length_app, <- app_assoc. simpl.
      f_equal; lia. }
    destruct callback_func as [g|].
    + specialize (Hq g eq_refl). simpl in Hq. inversion Hq as [|? ? Hhead _]; subst.
      unfold call_index, call_rows, call_total in Hhead. simpl in Hhead.
      change (total_rows (count_chunk self (length lines)))
        with (total_rows self + length lines).
      rewrite Hhead.
      destruct (Hargs (log ++ [(i, length lines, total_rows self + length lines)]))
        as (news & Hnews & Heq).
      exists (chunk :: news). split; [constructor; assumption|].
      rewrite Heq, <- (app_assoc log). reflexivity.
    + destruct (Hargs log) as (news & Hnews & Heq).
      exists (chunk :: news). split; [constructor; assumption|exact Heq].
Qed.

Lemma process_with_chunks_advance (self : Processor) (filepath : string)
    (callback_func : option Callback) :
  exists n m, after (_process_with_chunks self filepath callback_func) = advance self n m.
Proof.
  unfold _process_with_chunks.
  destruct (read_csv_chunked filepath (chunk_size self)) as [[[hdr width] pending]|e].
  - destruct (chunk_loop_accounting callback_func hdr width pending 0 2 self [] [])
      as (n & _ & Ha & _).
    cbn [after]. rewrite Ha. eauto.
  - exists 0, 0. cbn [after]. symmetry. apply advance_zero.
Qed.

(** What a table that the chunked path returns holds: the lines of the
    file, processed, in file order; and every read was processable. *)
Lemma process_with_chunks_returned (self : Processor) (filepath : string)
    (callback_func : option Callback) (f : CsvFile) (table : DataFrame) :
  open_file filepath = Some f ->
  returned (_process_with_chunks self filepath callback_func) = Ok table ->
  processed_from (header f) (table_width (header f) (body f)) (body f) table
  /\ Forall (fun lines => processable (header f) (table_width (header f) (body f))
                            lines = true)
       (read_chunks (Z.to_nat (chunk_size self)) (body f))
  /\ (1 <= chunk_size self)%Z.
Proof.
  intros Hf. unfold _process_with_chunks, read_csv_chunked.
  destruct (chunk_size self <? 1)%Z eqn:Hc; [discriminate|].
  apply Z.ltb_ge in Hc. rewrite Hf.
  destruct (header f) as [|h hs] eqn:Hh; [discriminate|]. rewrite <- Hh.
  cbn [returned].
  destruct (returned (chunk_loop callback_func (header f) _ 0 2
              (read_chunks (Z.to_nat (chunk_size self)) (body f)) self [] []))
    as [out|e] eqn:Hloop; simpl; [|discriminate].
  intros Hcat.
  destruct (@chunk_loop_returned _ _ _ _ _ _ _ _ _ _ (table_width_header _ _) Hloop)
    as (news & -> & Hall & Hps).
  simpl in Hcat.
  pose proof (concat_processed_from Hall Hcat) as Hfrom.
  rewrite read_chunks_concat in Hfrom by lia.
  split; [exact Hfrom|]. split; [exact Hps|exact Hc].
Qed.

(** The chunked path over processable reads, with a callback that returns,
    in full: the processor afterwards, the callback invocations, and a
    table that holds the lines of the file, processed, in file order. *)
Lemma process_with_chunks_ok (self : Processor) (filepath : string)
    (callback_func : option Callback) (f : CsvFile) :
  open_file filepath = Some f ->
  (1 <= chunk_size self)%Z ->
  Forall (fun lines => processable (header f) (table_width (header f) (body f))
                         lines = true)
    (read_chunks (Z.to_nat (chunk_size self)) (body f)) ->
  returns_normally callback_func ->
  exists table,
    _process_with_chunks self filepath callback_func
    = {| after := advance self
                    (length (read_chunks (Z.to_nat (chunk_size self)) (body f)))
                    (length (body f));
         calls := match callback_func with
                  | Some _ =>
                      progress_calls 0 (total_rows self)
                        (map (@length Line)
                           (read_chunks (Z.to_nat (chunk_size self)) (body f)))
                  | None => []
                  end;
         returned := Ok table |}
    /\ processed_from (header f) (table_width (header f) (body f)) (body f) table.
Proof.
  intros Hf Hc Hall Hcb.
  assert (Hn : 1 <= Z.to_nat (chunk_size self)) by lia.
  assert (Hh : header f <> []).
  { pose proof (read_chunks_not_nil (body f) Hn) as Hne.
    destruct (read_chunks (Z.to_nat (chunk_size self)) (body f)) as [|l r];
      [congruence|].
    inversion Hall as [|? ? Hl _]; subst.
    destruct (processable_inv _ _ _ Hl) as (Hm & _).
    exact (@mem_header_not_nil "created_at" (header f) Hm). }
  destruct (@chunk_loop_prefix callback_func (header f)
              (table_width (header f) (body f)) (table_width_header _ _)
              (read_chunks (Z.to_nat (chunk_size self)) (body f)) [] 0 2 self [] []
              Hall (returns_normally_quiet _ Hcb)) as (news & Hnews & Heq).
  rewrite app_nil_r in Heq.
  assert (Hne : news <> []).
  { intros ->. inversion Hnews as [Hnil|]; subst.
    exact (read_chunks_not_nil (body f) Hn (eq_sym Hnil)). }
  assert (Hcols : Forall (fun c => columns c = processed_columns (header f)) news).
  { clear Heq Hne. induction Hnews as [|l d r ds Hd Hr IH]; constructor.
    - exact (proj1 Hd).
    - apply IH. inversion Hall; assumption. }
  exists {| columns := processed_columns (header f); rows := flat_map rows news |}.
  split.
  - unfold _process_with_chunks, read_csv_chunked.
    replace (chunk_size self <? 1)%Z with false by (symmetry; apply Z.ltb_ge; lia).
    rewrite Hf.
    destruct (header f) as [|h hs] eqn:Hhd; [congruence|]. rewrite <- Hhd in *.
    rewrite Heq. cbn [chunk_loop after calls returned bind app].
    rewrite (concat_same_columns Hne Hcols).
    rewrite read_chunks_concat by exact Hn. reflexivity.
  - pose proof (concat_processed_from Hnews (concat_same_columns Hne Hcols)) as H.
    rewrite read_chunks_concat in H by exact Hn. exact H.
Qed.

End LoopLemmas.

(* ================================================================== *)
(** * Theorems *)
(* ================================================================== *)



(** C2.  When the distributed path is selected (the file is over 100 MB)
    and raises, [process_large_csv] returns what the chunked path returns
    on the same file.  A table it returns has every row of the file once
    and in file order, and it returns one whenever every read of the file
    can be processed: the failure of the distributed path is not
    propagated. *)
Theorem dask_fallback_transparent {U : Unicode} {W : World} (self : Processor)
    (filepath : string) (callback_func : option Callback) (info : FileInfo)
    (e : Exception) :
  estimate_file_size self filepath = Ok info ->
  (dask_threshold < file_size_bytes info)%Z ->
  dask_compute filepath = Err e ->
  returned (process_large_csv self filepath callback_func)
  = returned (_process_with_chunks self filepath None)
  /\ (forall f table, open_file filepath = Some f ->
        returned (process_large_csv self filepath callback_func) = Ok table ->
        nrows table = length (body f)
        /\ (forall name, mem name (header f) = true ->
              name <> "created_at" -> name <> "clean_text" ->
              map cell_text (column_values table name)
              = map field_text (file_column f name))
        /\ column_values table "clean_text" = map normalized (file_column f "text"))
  /\ (forall f, open_file filepath = Some f ->
        (1 <= chunk_size self)%Z ->
        Forall (fun lines => processable (header f) (table_width (header f) (body f))
                               lines = true)
          (read_chunks (Z.to_nat (chunk_size self)) (body f)) ->
        exists table,
          returned (process_large_csv self filepath callback_func) = Ok table).
Proof.
  intros Hest Hbig Hdask.
  assert (Heq : returned (process_large_csv self filepath callback_func)
                = returned (_process_with_chunks self filepath None)).
  { unfold process_large_csv. rewrite Hest.
    apply Z.ltb_lt in Hbig. rewrite Hbig.
    unfold _process_with_dask. rewrite Hdask.
    apply process_with_chunks_no_callback_returned.
    destruct (client self); reflexivity. }
  split; [exact Heq|]. split.
  - intros f table Hf Hret. rewrite Heq in Hret.
    destruct (process_with_chunks_returned self filepath None Hf Hret)
      as ((_ & Hn & _ & Hpass & Hclean) & _).
    split; [exact Hn|]. split; [exact Hpass|exact Hclean].
  - intros f Hf Hc Hall. rewrite Heq.
    destruct (process_with_chunks_ok self filepath (callback_func := None) Hf Hc Hall)
      as (table & Hrun & _).
    + intros g Hg. discriminate.
    + exists table. rewrite Hrun. reflexivity.
Qed.

(** C9.  The text normalizer is idempotent, on a string and on a value of
    the text column. *)
Theorem normalizer_idempotent {U : Unicode} (x : pystr) :
  clean_text (clean_text x) = clean_text x
  /\ forall c, clean_text_cell (clean_text_cell c) = clean_text_cell c.
Proof.
  assert (H : forall s, clean_text (clean_text s) = clean_text s).
  { intros s. unfold clean_text at 1.
    rewrite mention_free_fixed.
    - apply strip_idempotent.
    - apply mention_free_strip, sub_scan_mention_free. }
  split; [apply H|].
  intros [|s|t| |s|s]; simpl; try reflexivity.
  unfold clean_text_cell. simpl. f_equal. apply (H s).
Qed.

(** C10.  For a file over 100 MB [process_large_csv] never invokes the
    callback it was given; when the distributed path raises and every read
    of the file can be processed, every chunk is still processed and
    counted by the chunked path. *)
Theorem no_progress_reports_above_threshold {U : Unicode} {W : World}
    (self : Processor) (filepath : string) (callback_func : option Callback)
    (f : CsvFile) :
  open_file filepath = Some f ->
  (dask_threshold < file_bytes f)%Z ->
  calls (process_large_csv self filepath callback_func) = []
  /\ forall info e,
       estimate_file_size self filepath = Ok info ->
       dask_compute filepath = Err e ->
       (1 <= chunk_size self)%Z ->
       Forall (fun lines => processable (header f) (table_width (header f) (body f))
                              lines = true)
         (read_chunks (Z.to_nat (chunk_size self)) (body f)) ->
       processed_chunks (after (process_large_csv self filepath callback_func))
       = processed_chunks self
         + length (read_chunks (Z.to_nat (chunk_size self)) (body f))
       /\ total_rows (after (process_large_csv self filepath callback_func))
          = total_rows self + length (body f).
Proof.
  intros Hf Hbig. split.
  - unfold process_large_csv.
    destruct (estimate_file_size self filepath) as [info|e] eqn:Hest; [|reflexivity].
    destruct (estimate_file_size_ok _ _ Hest) as (f' & Hf' & Hsize).
    assert (f' = f) by congruence. subst f'.
    rewrite Hsize. apply Z.ltb_lt in Hbig. rewrite Hbig.
    unfold _process_with_dask.
    destruct (dask_compute filepath); [reflexivity|].
    apply process_with_chunks_no_callback_calls.
  - intros info e Hest Hdask Hc Hall.
    unfold process_large_csv. rewrite Hest.
    destruct (estimate_file_size_ok _ _ Hest) as (f' & Hf' & Hsize).
    assert (f' = f) by congruence. subst f'.
    rewrite Hsize. apply Z.ltb_lt in Hbig. rewrite Hbig.
    unfold _process_with_dask. rewrite Hdask.
    set (self1 := if client self then self else initialize_dask_client self).
    assert (Hsame : chunk_size self1 = chunk_size self
                    /\ processed_chunks self1 = processed_chunks self
                    /\ total_rows self1 = total_rows self)
      by (unfold self1; destruct (client self); repeat split; reflexivity).
    destruct Hsame as (Hcs & Hpc & Htr).
    destruct (@process_with_chunks_ok _ _ self1 filepath None f Hf)
      as (table & Hrun & _).
    + rewrite Hcs. exact Hc.
    + rewrite Hcs. exact Hall.
    + intros g Hg. discriminate.
    + rewrite Hrun. cbn [after advance processed_chunks total_rows].
      rewrite Hcs, Hpc, Htr. split; reflexivity.
Qed.

(** C4, as the code has it.  On every string the normalizer removes every
    mention token (an [@] and the longest run of word characters after it;
    every other character is kept) and then the whitespace at both ends, so
    that no mention token and no leading or trailing whitespace is left;
    the empty string stays empty.  The code applies it to the text column
    of a read.  When that column is a column of strings, every text is
    normalized and a missing text stays missing: it does not become the
    empty string.  When the read has lines and none of its texts makes a
    string (every text is missing, or every text is a number), the
    expression raises [AttributeError]. *)
Theorem normalizer_removes_mentions_and_strips {U : Unicode} (s : pystr)
    (col : list Field) :
  ~ has_mention (clean_text s)
  /\ (forall c r, clean_text s = c :: r -> is_space c = false)
  /\ (forall r c, clean_text s = r ++ [c] -> is_space c = false)
  /\ subseq (clean_text s) s
  /\ (exists pre post,
        replace_mentions s = pre ++ clean_text s ++ post
        /\ forallb is_space pre = true /\ forallb is_space post = true)
  /\ (forall d, is_word d = true ->
        replace_mentions (AT :: d :: s) = replace_mentions (dropwhile is_word s))
  /\ (forall c, (c =? AT)%N && next_is_word s = false ->
        replace_mentions (c :: s) = c :: replace_mentions s)
  /\ (~ has_mention s -> clean_text s = strip s)
  /\ clean_text [] = []
  /\ normalized (Text s) = Str (clean_text s)
  /\ normalized Empty = NaN
  /\ normalize_column (typed_column col)
     = match col with
       | [] => Ok []
       | _ => if read_as_strings col then Ok (map normalized col)
              else Err (AttributeError "Can only use .str accessor with string values!")
       end
  /\ (forallb is_number_or_empty col = true -> read_as_strings col = false).
Proof.
  repeat match goal with |- _ /\ _ => split end.
  - apply mention_free_has_mention.
    apply mention_free_strip, sub_scan_mention_free.
  - intros c r. apply strip_head.
  - intros r c. apply strip_last.
  - eapply subseq_trans; [apply strip_subseq|apply sub_scan_subseq].
  - apply strip_decompose.
  - intros d Hd. apply replace_mentions_at. exact Hd.
  - intros c Hc. apply replace_mentions_keep. exact Hc.
  - intros Hn. unfold clean_text.
    rewrite mention_free_fixed; [reflexivity|].
    apply mention_free_has_mention. exact Hn.
  - reflexivity.
  - reflexivity.
  - reflexivity.
  - unfold normalize_column.
    pose proof (clean_typed_column col) as Hclean.
    rewrite str_accessor_typed in Hclean |- *.
    destruct col as [|f r]; [reflexivity|].
    destruct (read_as_strings (f :: r)); [|reflexivity].
    cbn [bind]. rewrite (Hclean eq_refl). reflexivity.
  - unfold read_as_strings. intros ->. reflexivity.
Qed.

(** C4, as stated, fails.  In the three-row file whose second row has no
    text, read in chunks of two, the missing text stays missing; read in
    chunks of one, the chunk of the second row raises. *)
Lemma normalizer_missing_text_stays_missing :
  (exists table,
     returned (@_process_with_chunks ascii_only gappy_world demo_processor
                 "data/gappy.csv" None) = Ok table
     /\ column_values table "clean_text" = [Str (py "hello"); NaN; Str (py "bye")])
  /\ returned (@_process_with_chunks ascii_only gappy_world
                 (new_processor default_config (Some 1%Z)) "data/gappy.csv" None)
     = Err (AttributeError "Can only use .str accessor with string values!").
Proof.
  split; [|vm_compute; reflexivity].
  eexists. split; [vm_compute; reflexivity|reflexivity].
Qed.

(** C5, as the code has it.  With a callback that returns, the chunked path
    over a file of R rows whose reads can all be processed invokes it once
    per chunk, in ascending chunk-index order from 0, with the row count of
    the chunk and the processor's running [total_rows] (its value before
    the call plus the rows of the chunks so far); the running total is
    strictly increasing and after the final call it is the total the
    processor started the call with plus R, which is R for a processor that
    has not processed anything before. *)
Theorem progress_reports_per_chunk {U : Unicode} {W : World} (self : Processor)
    (filepath : string) (callback : Callback) (f : CsvFile) :
  open_file filepath = Some f ->
  (1 <= chunk_size self)%Z ->
  Forall (fun lines => processable (header f) (table_width (header f) (body f))
                         lines = true)
    (read_chunks (Z.to_nat (chunk_size self)) (body f)) ->
  (forall i n t, callback i n t = None) ->
  map call_index (calls (_process_with_chunks self filepath (Some callback)))
  = seq 0 (length (read_chunks (Z.to_nat (chunk_size self)) (body f)))
  /\ map call_rows (calls (_process_with_chunks self filepath (Some callback)))
     = map (@length Line) (read_chunks (Z.to_nat (chunk_size self)) (body f))
  /\ (forall k c,
        nth_error (calls (_process_with_chunks self filepath (Some callback))) k = Some c ->
        call_total c
        = total_rows self
          + length (List.concat
                      (firstn (S k) (read_chunks (Z.to_nat (chunk_size self)) (body f)))))
  /\ StronglySorted lt
       (map call_total (calls (_process_with_chunks self filepath (Some callback))))
  /\ last (map call_total (calls (_process_with_chunks self filepath (Some callback))))
          (total_rows self)
     = total_rows self + length (body f)
  /\ (total_rows self = 0 ->
      last (map call_total (calls (_process_with_chunks self filepath (Some callback)))) 0
      = length (body f)).
Proof.
  intros Hf Hc Hall Hcb.
  assert (Hn : 1 <= Z.to_nat (chunk_size self)) by lia.
  assert (Hret : returns_normally (Some callback)).
  { intros g [= <-]. exact Hcb. }
  destruct (process_with_chunks_ok self filepath Hf Hc Hall Hret) as (table & Hrun & _).
  rewrite Hrun. cbn [calls].
  assert (Hlast : last (map call_total
                    (progress_calls 0 (total_rows self)
                       (map (@length Line)
                          (read_chunks (Z.to_nat (chunk_size self)) (body f)))))
                    (total_rows self)
                  = total_rows self + length (body f)).
  { rewrite progress_calls_last, list_sum_lengths, read_chunks_concat by exact Hn.
    reflexivity. }
  split; [rewrite progress_calls_index, length_map; reflexivity|].
  split; [apply progress_calls_rows|].
  split; [|split; [|split; [exact Hlast|]]].
  - intros k c Hk. rewrite (progress_calls_nth _ _ _ _ Hk).
    unfold call_total. cbn [snd].
    rewrite firstn_map, list_sum_lengths. reflexivity.
  - destruct (body f) as [|l r] eqn:Hb.
    + simpl. repeat constructor.
    + apply progress_calls_increasing.
      apply Forall_map.
      eapply Forall_impl; [|apply (read_chunks_sizes (lines := l :: r) Hn); discriminate].
      simpl. intros c Hlen. lia.
  - intros H0. rewrite H0 in Hlast |- *. exact Hlast.
Qed.

(** C5, as stated, fails on a processor that has processed a file before:
    [total_rows] is not reset, and the final report of a second run over
    the three-row file carries 6. *)
Lemma progress_total_not_reset :
  last (map call_total
         (calls (@_process_with_chunks ascii_only demo_world
                   (after (@_process_with_chunks ascii_only demo_world demo_processor
                             "data/twcs.csv" (Some quiet_callback)))
                   "data/twcs.csv" (Some quiet_callback)))) 0
  <> length (body demo_file).
Proof. vm_compute. discriminate. Qed.


Section ParseFailure.
Context {U : Unicode} {W : World}.

(** The exception of a read that cannot be parsed: the tokenizer's, for the
    first line of too many fields, or that of [pd.to_datetime]. *)
Lemma parse_error_cases (hdr : list string) (width k : nat) (lines : list Line)
    (e : Exception) :
  parse_error hdr width k lines = Some e ->
  (exists before l rest,
     lines = before ++ l :: rest
     /\ existsb (rejected width) before = false
     /\ rejected width l = true
     /\ e = ParserError width (k + length before) (length l))
  \/ (existsb (rejected width) lines = false
      /\ to_datetime (typed_column (chunk_column hdr width lines "created_at")) = Err e).
Proof.
  unfold parse_error.
  destruct (existsb (rejected width) lines) eqn:Hrej.
  - destruct (tokenize_err width k lines Hrej) as (before & l & rest & H1 & H2 & H3 & H4).
    rewrite H4. intros [= <-]. left. exists before, l, rest. auto.
  - rewrite (@tokenize_ok width k lines Hrej).
    destruct (to_datetime _) as [ts|e'] eqn:Hd; [discriminate|].
    intros [= ->]. right. auto.
Qed.

(** A read that cannot be processed raises. *)
Lemma read_process_not_processable (hdr : list string) (width k : nat)
    (lines : list Line) :
  length hdr <= width ->
  processable hdr width lines = false ->
  exists e, (c <- read_chunk hdr width k lines ;; process_chunk c) = Err e.
Proof.
  intros Hw Hp.
  destruct (c <- read_chunk hdr width k lines ;; process_chunk c) as [chunk|e] eqn:Hrp;
    [|eauto].
  destruct (read_process_inv _ _ _ Hw Hrp) as [_ Hp']. congruence.
Qed.

(** When the reads before read [j] are processed and the callback returns
    on them, the chunked path is at read [j] with [j] chunks counted. *)
Lemma process_with_chunks_split (self : Processor) (filepath : string)
    (callback_func : option Callback) (f : CsvFile) (j : nat) (lines : list Line)
    (h : string) (hs : list string) :
  open_file filepath = Some f ->
  header f = h :: hs ->
  (1 <= chunk_size self)%Z ->
  nth_error (read_chunks (Z.to_nat (chunk_size self)) (body f)) j = Some lines ->
  Forall (fun l => processable (header f) (table_width (header f) (body f)) l = true)
    (firstn j (read_chunks (Z.to_nat (chunk_size self)) (body f))) ->
  quiet_on callback_func
    (progress_calls 0 (total_rows self)
       (map (@length Line)
          (firstn j (read_chunks (Z.to_nat (chunk_size self)) (body f))))) ->
  exists news rest,
    read_chunks (Z.to_nat (chunk_size self)) (body f)
    = firstn j (read_chunks (Z.to_nat (chunk_size self)) (body f)) ++ lines :: rest
    /\ _process_with_chunks self filepath callback_func
       = let o := chunk_loop callback_func (header f) (table_width (header f) (body f))
                    j (2 + length (List.concat
                                     (firstn j (read_chunks (Z.to_nat (chunk_size self))
                                                  (body f)))))
                    (lines :: rest)
                    (advance self j
                       (length (List.concat
                                  (firstn j (read_chunks (Z.to_nat (chunk_size self))
                                               (body f))))))
                    news
                    match callback_func with
                    | Some _ =>
                        progress_calls 0 (total_rows self)
                          (map (@length Line)
                             (firstn j (read_chunks (Z.to_nat (chunk_size self))
                                          (body f))))
                    | None => []
                    end in
         {| after := after o; calls := calls o;
            returned := chunks <- returned o ;; concat chunks |}.
Proof.
  intros Hf Hh Hc Hj Hgood Hq.
  destruct (nth_error_split _ _ Hj) as (good & rest & Hsplit & Hlen).
  assert (Hfirst : firstn j (read_chunks (Z.to_nat (chunk_size self)) (body f)) = good).
  { rewrite Hsplit, <- Hlen, firstn_app, Nat.sub_diag, firstn_all. simpl.
    apply app_nil_r. }
  rewrite Hfirst in *.
  destruct (@chunk_loop_prefix _ _ callback_func (header f)
              (table_width (header f) (body f)) (table_width_header _ _)
              good (lines :: rest) 0 2 self [] [] Hgood Hq) as (news & _ & Heq).
  exists news, rest. split; [exact Hsplit|].
  unfold _process_with_chunks, read_csv_chunked.
  replace (chunk_size self <? 1)%Z with false by (symmetry; apply Z.ltb_ge; lia).
  rewrite Hf, Hh, <- Hh, Hsplit, Heq, Hlen. reflexivity.
Qed.

End ParseFailure.

(** C7, as the code has it.  If the library raises when it parses a read of
    the file (a line has too many fields, or [pd.to_datetime] raises on the
    timestamps of the read), the chunked call raises and returns no table.
    When the reads before it are processed and the callback returns on
    them, the exception is the one the library raised, re-raised as it is:
    the tokenizer's names the expected number of fields, the line and its
    number of fields, and neither names the file or the chunk.  The call
    reads the path only to open the file, so it behaves the same, exception
    included, under any other path that holds the same file. *)
Theorem parse_failure_aborts {U : Unicode} {W : World} (self : Processor)
    (filepath : string) (callback_func : option Callback) (f : CsvFile)
    (j : nat) (bad : list Line) (e : Exception) :
  open_file filepath = Some f ->
  mem "created_at" (header f) = true ->
  (1 <= chunk_size self)%Z ->
  nth_error (read_chunks (Z.to_nat (chunk_size self)) (body f)) j = Some bad ->
  parse_error (header f) (table_width (header f) (body f))
    (2 + length (List.concat
                   (firstn j (read_chunks (Z.to_nat (chunk_size self)) (body f)))))
    bad = Some e ->
  (exists e', returned (_process_with_chunks self filepath callback_func) = Err e')
  /\ (Forall (fun l => processable (header f) (table_width (header f) (body f)) l = true)
        (firstn j (read_chunks (Z.to_nat (chunk_size self)) (body f))) ->
      returns_normally callback_func ->
      returned (_process_with_chunks self filepath callback_func) = Err e)
  /\ ((exists before l rest,
         bad = before ++ l :: rest
         /\ existsb (rejected (table_width (header f) (body f))) before = false
         /\ rejected (table_width (header f) (body f)) l = true
         /\ e = ParserError (table_width (header f) (body f))
                  (2 + length (List.concat
                                 (firstn j (read_chunks (Z.to_nat (chunk_size self))
                                              (body f))))
                   + length before)
                  (length l))
      \/ (existsb (rejected (table_width (header f) (body f))) bad = false
          /\ to_datetime (typed_column
                            (chunk_column (header f) (table_width (header f) (body f))
                               bad "created_at")) = Err e))
  /\ forall other, open_file other = Some f ->
       _process_with_chunks self other callback_func
       = _process_with_chunks self filepath callback_func.
Proof.
  intros Hf Hmc Hc Hj Hbad.
  split; [|split; [|split]].
  - destruct (returned (_process_with_chunks self filepath callback_func))
      as [table|e'] eqn:Hret; [|eauto].
    destruct (process_with_chunks_returned self filepath callback_func Hf Hret)
      as (_ & Hall & _).
    rewrite Forall_forall in Hall.
    pose proof (Hall bad (nth_error_In _ _ Hj)) as Hp.
    rewrite (processable_no_parse_error _ _ _ _ Hp) in Hbad. discriminate.
  - intros Hgood Hcb.
    destruct (header f) as [|h hs] eqn:Hh; [discriminate|]. rewrite <- Hh in *.
    destruct (@process_with_chunks_split _ _ self filepath callback_func f j bad h hs
                Hf Hh Hc Hj Hgood (returns_normally_quiet _ Hcb))
      as (news & rest & _ & Heq).
    rewrite Heq. cbn [returned chunk_loop].
    rewrite (@read_process_parse_error _ _ (header f) (table_width (header f) (body f))
               _ bad e (table_width_header _ _) Hmc Hbad).
    reflexivity.
  - exact (parse_error_cases _ _ _ _ Hbad).
  - intros other Ho.
    apply (@process_with_chunks_same_file _ _ self other filepath callback_func f Ho Hf).
Qed.

(** C7, as stated, fails: the exception identifies neither the file nor
    the chunk.  Two paths hold the same file with an unparseable timestamp,
    and the call raises the same exception for both. *)
Lemma parse_error_names_no_file :
  ~ exists locate : Exception -> string * nat,
      forall self path f e,
        demo_files path = Some f ->
        (1 <= chunk_size self)%Z ->
        returned (@_process_with_chunks ascii_only demo_world self path None) = Err e ->
        fst (locate e) = path
        /\ @first_bad_chunk demo_world (header f) (table_width (header f) (body f)) 0 2
             (read_chunks (Z.to_nat (chunk_size self)) (body f))
           = Some (snd (locate e)).
Proof.
  intros [locate H].
  assert (Hc : (1 <= chunk_size demo_processor)%Z) by (simpl; lia).
  pose proof (H demo_processor "data/bad_a.csv" bad_time_file
                (DateParseError (py "yesterday") 1) eq_refl Hc eq_refl) as [Ha _].
  pose proof (H demo_processor "data/bad_b.csv" bad_time_file
                (DateParseError (py "yesterday") 1) eq_refl Hc eq_refl) as [Hb _].
  rewrite Ha in Hb. discriminate.
Qed.

(** The same for the chunk index: the line 3 of seven fields is in chunk 1
    when the chunk size is 1 and in chunk 0 when it is 2, and the exception
    is the same. *)
Example parse_error_names_no_chunk :
  returned (@_process_with_chunks ascii_only demo_world
              (new_processor default_config (Some 1%Z)) "data/bad_row.csv" None)
  = Err (ParserError 5 3 7)
  /\ returned (@_process_with_chunks ascii_only demo_world
                 (new_processor default_config (Some 2%Z)) "data/bad_row.csv" None)
     = Err (ParserError 5 3 7)
  /\ @first_bad_chunk demo_world demo_header 5 0 2 (read_chunks 1 (body bad_row_file))
     = Some 1
  /\ @first_bad_chunk demo_world demo_header 5 0 2 (read_chunks 2 (body bad_row_file))
     = Some 0.
Proof. repeat split; vm_compute; reflexivity. Qed.

(** A line of one field more than the header has labels, when it is the
    first line, is not malformed: its first field is the index of the row,
    and the file is processed. *)
Example first_line_sets_the_width :
  table_width (header indexed_file) (body indexed_file) = 6
  /\ exists table,
       returned (@_process_with_chunks ascii_only demo_world demo_processor
                   "data/indexed.csv" None) = Ok table
       /\ columns table = demo_header ++ ["clean_text"]
       /\ column_values table "text" = [Str (py "hello"); Str (py "bye")].
Proof.
  split; [reflexivity|].
  eexists. split; [vm_compute; reflexivity|]. split; reflexivity.
Qed.

(** C8, on the code.  [LargeFileProcessor] defines neither score
    calculator: looking either method up on the processor raises
    [AttributeError], so the two calls of [app.py] raise it for every text,
    the empty text included, whatever a call of a method would do. *)
Theorem score_calculators_are_missing (call : string -> pystr -> Result Q)
    (clean_message : pystr) :
  getattr "_calculate_urgency_score"
  = Err (AttributeError
           "'LargeFileProcessor' object has no attribute '_calculate_urgency_score'")
  /\ getattr "_calculate_frustration_score"
     = Err (AttributeError
              "'LargeFileProcessor' object has no attribute '_calculate_frustration_score'")
  /\ score_calls call clean_message
     = Err (AttributeError
              "'LargeFileProcessor' object has no attribute '_calculate_urgency_score'")
  /\ score_calls call []
     = Err (AttributeError
              "'LargeFileProcessor' object has no attribute '_calculate_urgency_score'")
  /\ Forall (fun name => getattr name = Ok name) (instance_attributes ++ class_methods).
Proof.
  repeat split; try reflexivity.
  repeat constructor.
Qed.

(** C3, on the code.  The table the pipeline returns for the three-row file
    has the columns of the file and [clean_text], and nothing else: no
    urgency score, no frustration score, no response category. *)
Theorem pipeline_output_lacks_scores :
  exists table,
    returned (@process_large_csv ascii_only demo_world demo_processor
                "data/twcs.csv" (Some quiet_callback)) = Ok table
    /\ columns table = demo_header ++ ["clean_text"]
    /\ ~ In "urgency_score" (columns table)
    /\ ~ In "frustration_score" (columns table)
    /\ ~ In "response_category" (columns table).
Proof.
  eexists. split; [vm_compute; reflexivity|].
  split; [reflexivity|].
  simpl. repeat split; intros H;
    repeat (destruct H as [H|H]; [discriminate|]); exact H.
Qed.

(* ================================================================== *)
(** * The theorems at concrete inputs *)
(* ================================================================== *)

(** The reporting callback never raises. *)
Lemma quiet_callback_returns : returns_normally (Some quiet_callback).
Proof. intros g Hg i n t. injection Hg as Hg. subst g. reflexivity. Defined.

(** Both reads of the three-row file in chunks of two can be processed. *)
Lemma demo_reads_processable :
  Forall (fun lines => @processable demo_world (header demo_file)
                         (table_width (header demo_file) (body demo_file)) lines = true)
    (read_chunks (Z.to_nat (chunk_size demo_processor)) (body demo_file)).
Proof. repeat constructor. Defined.


(** C2 at the 200 MB file, in a world whose Dask path raises. *)
Lemma dask_fallback_transparent_witness :
  returned (@process_large_csv ascii_only demo_world demo_processor
              "data/big.csv" (Some quiet_callback))
  = returned (@_process_with_chunks ascii_only demo_world demo_processor
                "data/big.csv" None).
Proof.
  assert (Hest : exists info,
             @estimate_file_size demo_world demo_processor "data/big.csv" = Ok info
             /\ (dask_threshold < file_size_bytes info)%Z).
  { eexists. split; [vm_compute; reflexivity|vm_compute; reflexivity]. }
  destruct Hest as (info & Hest & Hbig).
  apply (proj1 (@dask_fallback_transparent ascii_only demo_world demo_processor
                  "data/big.csv" (Some quiet_callback) info (RuntimeError 1)
                  Hest Hbig eq_refl)).
Defined.

(** C10 at the 200 MB file. *)
Lemma no_progress_reports_above_threshold_witness :
  calls (@process_large_csv ascii_only demo_world demo_processor
           "data/big.csv" (Some quiet_callback)) = [].
Proof.
  apply (proj1 (@no_progress_reports_above_threshold ascii_only demo_world
                  demo_processor "data/big.csv" (Some quiet_callback) big_file
                  eq_refl eq_refl)).
Defined.

(** C5 at the three-row file on a new processor: two reports, the last
    with 3. *)
Lemma progress_reports_per_chunk_witness :
  map call_index (calls (@_process_with_chunks ascii_only demo_world demo_processor
                           "data/twcs.csv" (Some quiet_callback)))
  = seq 0 2
  /\ last (map call_total
             (calls (@_process_with_chunks ascii_only demo_world demo_processor
                       "data/twcs.csv" (Some quiet_callback)))) 0
     = 3.
Proof.
  destruct (@progress_reports_per_chunk ascii_only demo_world demo_processor
              "data/twcs.csv" quiet_callback demo_file)
    as (H1 & _ & _ & _ & _ & H5).
  - reflexivity.
  - simpl. lia.
  - exact demo_reads_processable.
  - reflexivity.
  - split; [exact H1|]. apply H5. reflexivity.
Defined.


(** C7 at the file with an unparseable timestamp in its second row, read in
    chunks of two: the exception is that of [pd.to_datetime]. *)
Lemma parse_failure_aborts_witness :
  returned (@_process_with_chunks ascii_only demo_world demo_processor
              "data/bad_a.csv" (Some quiet_callback))
  = Err (DateParseError (py "yesterday") 1).
Proof.
  apply (proj1 (proj2 (@parse_failure_aborts ascii_only demo_world demo_processor
           "data/bad_a.csv" (Some quiet_callback) bad_time_file 0 (body bad_time_file)
           (DateParseError (py "yesterday") 1)
           eq_refl eq_refl ltac:(simpl; lia) eq_refl eq_refl))).
  - constructor.
  - exact quiet_callback_returns.
Defined.

(* ================================================================== *)
(** * Further properties of the processor *)
(* ================================================================== *)

(** X1.  Whatever the file, the callback and the outcome, a call of
    [process_large_csv] keeps the chunk size of the processor, never lowers
    its two counters and never drops a Dask client it had; a call of
    [_process_with_chunks] leaves the client as it was. *)
Theorem processor_state_invariants {U : Unicode} {W : World} (self : Processor)
    (filepath : string) (callback_func : option Callback) :
  chunk_size (after (process_large_csv self filepath callback_func)) = chunk_size self
  /\ processed_chunks self
     <= processed_chunks (after (process_large_csv self filepath callback_func))
  /\ total_rows self <= total_rows (after (process_large_csv self filepath callback_func))
  /\ (client self = true ->
      client (after (process_large_csv self filepath callback_func)) = true)
  /\ client (after (_process_with_chunks self filepath callback_func)) = client self.
Proof.
  assert (Hadv : forall s cb,
            chunk_size (after (_process_with_chunks s filepath cb)) = chunk_size s
            /\ processed_chunks s <= processed_chunks (after (_process_with_chunks s filepath cb))
            /\ total_rows s <= total_rows (after (_process_with_chunks s filepath cb))
            /\ client (after (_process_with_chunks s filepath cb)) = client s).
  { intros s cb. destruct (process_with_chunks_advance s filepath cb) as (n & m & ->).
    simpl. repeat split; lia. }
  assert (Hgoal :
    chunk_size (after (process_large_csv self filepath callback_func)) = chunk_size self
    /\ processed_chunks self
       <= processed_chunks (after (process_large_csv self filepath callback_func))
    /\ total_rows self <= total_rows (after (process_large_csv self filepath callback_func))
    /\ (client self = true ->
        client (after (process_large_csv self filepath callback_func)) = true)).
  { unfold process_large_csv.
    destruct (estimate_file_size self filepath) as [info|e]; [|simpl; auto].
    destruct (dask_threshold <? file_size_bytes info)%Z.
    - unfold _process_with_dask.
      destruct (dask_compute filepath) as [df|e].
      + cbn [after]. destruct (client self) eqn:Hcl; simpl; repeat split; auto;
          try lia; intro; discriminate.
      + destruct (Hadv (if client self then self else initialize_dask_client self) None)
          as (H1 & H2 & H3 & H4).
        rewrite H1, H4. destruct (client self) eqn:Hcl; simpl in *; repeat split; auto;
          try lia; intro; discriminate.
    - destruct (Hadv self callback_func) as (H1 & H2 & H3 & H4).
      rewrite H4. auto. }
  destruct Hgoal as (G1 & G2 & G3 & G4).
  destruct (Hadv self callback_func) as (_ & _ & _ & H4). auto.
Qed.

(** X2.  However a call of [_process_with_chunks] with a callback ends, the
    callback was invoked once for each chunk counted in [processed_chunks],
    with the indices 0, 1, ... in order; the row counts it was handed add up
    to the growth of [total_rows]; and the total handed to invocation k is
    the total before the call plus the row counts of invocations 0 to k. *)
Theorem callback_accounting {U : Unicode} {W : World} (self : Processor)
    (filepath : string) (callback : Callback) :
  processed_chunks (after (_process_with_chunks self filepath (Some callback)))
  = processed_chunks self
    + length (calls (_process_with_chunks self filepath (Some callback)))
  /\ total_rows (after (_process_with_chunks self filepath (Some callback)))
     = total_rows self
       + list_sum (map call_rows (calls (_process_with_chunks self filepath (Some callback))))
  /\ map call_index (calls (_process_with_chunks self filepath (Some callback)))
     = seq 0 (length (calls (_process_with_chunks self filepath (Some callback))))
  /\ forall k c,
       nth_error (calls (_process_with_chunks self filepath (Some callback))) k = Some c ->
       call_total c
       = total_rows self
         + list_sum (firstn (S k)
             (map call_rows (calls (_process_with_chunks self filepath (Some callback))))).
Proof.
  assert (H : exists sizes,
            after (_process_with_chunks self filepath (Some callback))
            = advance self (length sizes) (list_sum sizes)
            /\ calls (_process_with_chunks self filepath (Some callback))
               = progress_calls 0 (total_rows self) sizes).
  { unfold _process_with_chunks.
    destruct (read_csv_chunked filepath (chunk_size self)) as [[[hdr width] pending]|e].
    - destruct (chunk_loop_accounting (Some callback) hdr width pending 0 2 self [] [])
        as (n & Hn & Ha & Hc).
      exists (firstn n (map (@length Line) pending)).
      cbn [after calls]. rewrite Ha, Hc.
      rewrite length_firstn, length_map, Nat.min_l by exact Hn.
      split; reflexivity.
    - exists []. cbn [after calls]. rewrite advance_zero. split; reflexivity. }
  destruct H as (sizes & Ha & Hc). rewrite Ha, Hc.
  assert (Hlen : length (progress_calls 0 (total_rows self) sizes) = length sizes).
  { rewrite <- (length_map call_index), progress_calls_index. apply length_seq. }
  rewrite progress_calls_index, progress_calls_rows, Hlen.
  repeat split.
  intros k c Hk. rewrite (progress_calls_nth _ _ _ _ Hk). reflexivity.
Qed.

(** X3.  Whenever [_process_with_chunks] returns a table, the table has one
    row for each line of the file and the labels of the file with
    [clean_text]; [total_rows] has grown by the number of lines and
    [processed_chunks] by the number of chunks read; and the chunk size of
    the processor is at least 1. *)
Theorem successful_call_counts_every_row {U : Unicode} {W : World} (self : Processor)
    (filepath : string) (callback_func : option Callback) (f : CsvFile)
    (table : DataFrame) :
  open_file filepath = Some f ->
  returned (_process_with_chunks self filepath callback_func) = Ok table ->
  nrows table = length (body f)
  /\ columns table = processed_columns (header f)
  /\ total_rows (after (_process_with_chunks self filepath callback_func))
     = total_rows self + length (body f)
  /\ processed_chunks (after (_process_with_chunks self filepath callback_func))
     = processed_chunks self
       + length (read_chunks (Z.to_nat (chunk_size self)) (body f))
  /\ (1 <= chunk_size self)%Z.
Proof.
  intros Hf Hret.
  pose proof (process_with_chunks_columns self filepath callback_func Hf Hret) as Hcols.
  revert Hret. unfold _process_with_chunks, read_csv_chunked.
  destruct (chunk_size self <? 1)%Z eqn:Hc; [discriminate|].
  apply Z.ltb_ge in Hc. rewrite Hf.
  destruct (header f) as [|h hs] eqn:Hh; [discriminate|]. rewrite <- Hh in *.
  cbn [after returned].
  destruct (returned (chunk_loop callback_func (header f) _ 0 2
              (read_chunks (Z.to_nat (chunk_size self)) (body f)) self [] []))
    as [out|e] eqn:Hloop; simpl; [|discriminate].
  intros Hcat.
  destruct (chunk_loop_success _ _ _ _ _ _ _ _ _ Hloop) as [Ha Hs].
  rewrite read_chunks_concat in Ha, Hs by lia.
  rewrite Ha. simpl in Hs.
  rewrite (concat_nrows _ Hcat), Hs.
  repeat split; try reflexivity; assumption.
Qed.

(** X4.  When [estimate_file_size] returns, the chunk size it recommends
    lies between the smaller of the processor's chunk size and 1000, and the
    processor's chunk size; it is the processor's chunk size whenever that
    is at most 1000.  The reported size and columns are those of the file,
    which has a header. *)
Theorem estimate_file_size_bounds {W : World} (self : Processor) (filepath : string)
    (info : FileInfo) :
  estimate_file_size self filepath = Ok info ->
  (Z.min (chunk_size self) 1000 <= recommended_chunk_size info <= chunk_size self)%Z
  /\ ((chunk_size self <= 1000)%Z -> recommended_chunk_size info = chunk_size self)
  /\ recommended_chunk_size info
     = Z.min (chunk_size self) (Z.max 1000 (estimated_rows info / 100))
  /\ exists f, open_file filepath = Some f
       /\ file_size_bytes info = file_bytes f
       /\ info_columns info = header f
       /\ header f <> [].
Proof.
  unfold estimate_file_size, read_csv_nrows.
  destruct (open_file filepath) as [f|]; [|discriminate].
  destruct (header f) as [|h hs] eqn:Hh; [discriminate|]. rewrite <- Hh.
  unfold read_chunk.
  destruct (tokenize _ 2 (firstn 1000 (body f))) as [rs|]; simpl; [|discriminate].
  destruct (memory_usage _ =? 0)%Z; [discriminate|].
  intros [= <-]. simpl.
  split; [lia|]. split; [lia|]. split; [reflexivity|].
  exists f. repeat split. rewrite Hh. discriminate.
Qed.

(** X5.  A line among the first 1000 with more fields than the reader
    expects makes [process_large_csv] raise while it estimates the file,
    before any chunk is processed: the exception is the tokenizer's, for the
    first such line, the callback is not invoked and the processor is left
    as it was.  The line is never the first line of the file, whose fields
    set what the reader expects. *)
Theorem early_malformed_line_stops_estimate {U : Unicode} {W : World}
    (self : Processor) (filepath : string) (callback_func : option Callback)
    (f : CsvFile) :
  open_file filepath = Some f ->
  header f <> [] ->
  existsb (rejected (table_width (header f) (body f))) (firstn 1000 (body f)) = true ->
  (exists before l rest,
     firstn 1000 (body f) = before ++ l :: rest
     /\ before <> []
     /\ existsb (rejected (table_width (header f) (body f))) before = false
     /\ estimate_file_size self filepath
        = Err (ParserError (table_width (header f) (body f))
                 (2 + length before) (length l))
     /\ returned (process_large_csv self filepath callback_func)
        = Err (ParserError (table_width (header f) (body f))
                 (2 + length before) (length l)))
  /\ calls (process_large_csv self filepath callback_func) = []
  /\ after (process_large_csv self filepath callback_func) = self.
Proof.
  intros Hf Hh Hbad.
  destruct (tokenize_err _ 2 _ Hbad) as (before & l & rest & Hsplit & Hb & Hl & Ht).
  assert (Hest : estimate_file_size self filepath
                 = Err (ParserError (table_width (header f) (body f))
                          (2 + length before) (length l))).
  { unfold estimate_file_size, read_csv_nrows. rewrite Hf.
    destruct (header f) as [|h hs] eqn:E; [congruence|].
    unfold read_chunk. rewrite Ht. reflexivity. }
  unfold process_large_csv. rewrite Hest. cbn [calls after returned].
  split; [|split; reflexivity].
  exists before, l, rest. repeat split; try assumption.
  intros ->. simpl in Hsplit.
  destruct (body f) as [|l0 r0] eqn:Hbody; [discriminate|].
  simpl in Hsplit. injection Hsplit as <- _.
  rewrite first_line_fits in Hl. discriminate.
Qed.

(** X6.  When read [j] is the first read that cannot be processed and the
    callback returns, the call raises, and what it did for the earlier
    reads stays: the processor has counted [j] chunks and their rows, and
    the callback was invoked for each of them and for no other. *)
Theorem failure_keeps_partial_progress {U : Unicode} {W : World} (self : Processor)
    (filepath : string) (callback_func : option Callback) (f : CsvFile)
    (j : nat) (bad : list Line) :
  open_file filepath = Some f ->
  (1 <= chunk_size self)%Z ->
  returns_normally callback_func ->
  nth_error (read_chunks (Z.to_nat (chunk_size self)) (body f)) j = Some bad ->
  Forall (fun l => processable (header f) (table_width (header f) (body f)) l = true)
    (firstn j (read_chunks (Z.to_nat (chunk_size self)) (body f))) ->
  processable (header f) (table_width (header f) (body f)) bad = false ->
  (exists e, returned (_process_with_chunks self filepath callback_func) = Err e)
  /\ processed_chunks (after (_process_with_chunks self filepath callback_func))
     = processed_chunks self + j
  /\ total_rows (after (_process_with_chunks self filepath callback_func))
     = total_rows self
       + length (List.concat
                   (firstn j (read_chunks (Z.to_nat (chunk_size self)) (body f))))
  /\ calls (_process_with_chunks self filepath callback_func)
     = match callback_func with
       | Some _ =>
           progress_calls 0 (total_rows self)
             (map (@length Line)
                (firstn j (read_chunks (Z.to_nat (chunk_size self)) (body f))))
       | None => []
       end.
Proof.
  intros Hf Hc Hcb Hj Hgood Hbad.
  destruct (header f) as [|h hs] eqn:Hh.
  - assert (Hj0 : firstn j (read_chunks (Z.to_nat (chunk_size self)) (body f)) = []).
    { destruct (firstn j _) as [|l r] eqn:E; [reflexivity|].
      inversion Hgood as [|? ? Hl _]; subst. discriminate. }
    assert (j = 0).
    { destruct j; [reflexivity|].
      destruct (read_chunks (Z.to_nat (chunk_size self)) (body f)); discriminate. }
    subst j. unfold _process_with_chunks, read_csv_chunked.
    replace (chunk_size self <? 1)%Z with false by (symmetry; apply Z.ltb_ge; lia).
    rewrite Hf, Hh. cbn [after calls returned firstn List.concat length map progress_calls].
    rewrite !Nat.add_0_r. split; [eauto|].
    destruct callback_func; auto.
  - rewrite <- Hh in *.
    destruct (@process_with_chunks_split _ _ self filepath callback_func f j bad h hs
                Hf Hh Hc Hj Hgood (returns_normally_quiet _ Hcb))
      as (news & rest & _ & Heq).
    rewrite Heq. cbn [after calls returned chunk_loop].
    destruct (@read_process_not_processable _ _ (header f)
                (table_width (header f) (body f))
                (2 + length (List.concat
                               (firstn j (read_chunks (Z.to_nat (chunk_size self))
                                            (body f)))))
                bad (table_width_header _ _) Hbad) as [e He].
    rewrite He. cbn [after calls returned bind advance processed_chunks total_rows].
    split; [eauto|]. auto.
Qed.

(** X7.  When the first [k + 1] reads can be processed and the callback
    returns for the first [k] chunks and raises for chunk [k], the call
    raises that exception; chunk [k] is already counted, the callback has
    been invoked [k + 1] times, and no later chunk is read. *)
Theorem callback_exception_aborts {U : Unicode} {W : World} (self : Processor)
    (filepath : string) (callback : Callback) (f : CsvFile)
    (k : nat) (c : Call) (e : Exception) :
  open_file filepath = Some f ->
  (1 <= chunk_size self)%Z ->
  Forall (fun l => processable (header f) (table_width (header f) (body f)) l = true)
    (firstn (S k) (read_chunks (Z.to_nat (chunk_size self)) (body f))) ->
  nth_error (progress_calls 0 (total_rows self)
               (map (@length Line) (read_chunks (Z.to_nat (chunk_size self)) (body f))))
            k = Some c ->
  callback (call_index c) (call_rows c) (call_total c) = Some e ->
  Forall (fun c' => callback (call_index c') (call_rows c') (call_total c') = None)
    (firstn k (progress_calls 0 (total_rows self)
                 (map (@length Line)
                    (read_chunks (Z.to_nat (chunk_size self)) (body f))))) ->
  returned (_process_with_chunks self filepath (Some callback)) = Err e
  /\ calls (_process_with_chunks self filepath (Some callback))
     = firstn (S k)
         (progress_calls 0 (total_rows self)
            (map (@length Line) (read_chunks (Z.to_nat (chunk_size self)) (body f))))
  /\ processed_chunks (after (_process_with_chunks self filepath (Some callback)))
     = processed_chunks self + S k
  /\ total_rows (after (_process_with_chunks self filepath (Some callback)))
     = call_total c.
Proof.
  intros Hf Hc Hall Hk He Hquiet.
  assert (Hn : 1 <= Z.to_nat (chunk_size self)) by lia.
  set (chunks := read_chunks (Z.to_nat (chunk_size self)) (body f)) in *.
  assert (Hkl : k < length chunks).
  { assert (Hlt : k < length (progress_calls 0 (total_rows self)
                                (map (@length Line) chunks)))
      by (apply nth_error_Some; rewrite Hk; discriminate).
    rewrite <- (length_map call_index), progress_calls_index, length_seq,
      length_map in Hlt. exact Hlt. }
  destruct (nth_error chunks k) as [lines|] eqn:Hlk;
    [|apply nth_error_None in Hlk; lia].
  destruct (nth_error_split _ _ Hlk) as (good & rest & Hsplit & Hlen).
  assert (Hfirst : firstn k chunks = good).
  { rewrite Hsplit, <- Hlen, firstn_app, Nat.sub_diag, firstn_all. simpl.
    apply app_nil_r. }
  assert (Hfirst' : firstn (S k) chunks = good ++ [lines]).
  { rewrite Hsplit, <- Hlen, firstn_app, firstn_all2 by lia.
    replace (S (length good) - length good) with 1 by lia. reflexivity. }
  rewrite Hfirst' in Hall. apply Forall_app in Hall. destruct Hall as [Hgood Hlines].
  assert (Hl : processable (header f) (table_width (header f) (body f)) lines = true)
    by (inversion Hlines; assumption).
  assert (Hexp : progress_calls 0 (total_rows self) (map (@length Line) chunks)
                 = progress_calls 0 (total_rows self) (map (@length Line) good)
                   ++ (k, length lines, total_rows self + length (List.concat good)
                                        + length lines)
                   :: progress_calls (S k)
                        (total_rows self + length (List.concat good) + length lines)
                        (map (@length Line) rest)).
  { rewrite Hsplit, map_app, progress_calls_app, length_map, Hlen, list_sum_lengths.
    reflexivity. }
  assert (Hpl : length (progress_calls 0 (total_rows self) (map (@length Line) good)) = k).
  { rewrite <- (length_map call_index), progress_calls_index, length_seq, length_map.
    exact Hlen. }
  rewrite Hexp in Hk, Hquiet |- *.
  rewrite nth_error_app2 in Hk by lia.
  rewrite Hpl, Nat.sub_diag in Hk. simpl in Hk. injection Hk as <-.
  rewrite firstn_app, Hpl, Nat.sub_diag, firstn_all2 in Hquiet by lia.
  simpl in Hquiet. rewrite app_nil_r in Hquiet.
  unfold call_index, call_rows, call_total in He. simpl in He.
  assert (Hh : header f <> []).
  { destruct (processable_inv _ _ _ Hl) as (Hm & _).
    exact (@mem_header_not_nil "created_at" (header f) Hm). }
  destruct (header f) as [|h hs] eqn:Hhd; [congruence|]. rewrite <- Hhd in *.
  assert (Hq : quiet_on (Some callback)
                 (progress_calls 0 (total_rows self)
                    (map (@length Line) (firstn k chunks)))).
  { rewrite Hfirst. intros g Hg. injection Hg as <-. exact Hquiet. }
  assert (Hgood' : Forall (fun l => processable (header f)
                             (table_width (header f) (body f)) l = true)
                     (firstn k chunks))
    by (rewrite Hfirst; exact Hgood).
  destruct (@process_with_chunks_split _ _ self filepath (Some callback) f k lines h hs
              Hf Hhd Hc Hlk Hgood' Hq) as (news & rest' & _ & Heq).
  rewrite Heq. fold chunks. rewrite Hfirst. cbn [chunk_loop].
  destruct (@read_process_ok _ _ (header f) (table_width (header f) (body f))
              (2 + length (List.concat good)) lines (table_width_header _ _) Hl)
    as [chunk Hrp].
  rewrite Hrp, (read_process_nrows _ _ _ _ Hrp).
  change (total_rows (count_chunk (advance self k (length (List.concat good)))
                        (length lines)))
    with (total_rows self + length (List.concat good) + length lines).
  rewrite He. cbn [after calls returned bind].
  split; [reflexivity|]. split.
  - rewrite firstn_app, Hpl.
    replace (S k - k) with 1 by lia.
    rewrite firstn_all2 by lia. reflexivity.
  - unfold call_total. simpl. split; lia.
Qed.

(* ================================================================== *)
(** * Further properties of the normalizer *)
(* ================================================================== *)

Section NormalizerComposition.
Context {U : Unicode}.

Lemma next_is_word_app (a b : pystr) :
  next_is_word b = false -> next_is_word (a ++ b) = next_is_word a.
Proof. destruct a; simpl; trivial. Qed.

Lemma sub_scan_app (a b : pystr) (st : bool) :
  next_is_word b = false ->
  sub_scan st (a ++ b) = sub_scan st a ++ sub_scan false b.
Proof.
  intros Hb. revert st. induction a as [|c r IH]; intros st.
  - destruct b as [|d b']; [reflexivity|].
    simpl in *. rewrite Hb, andb_false_r. reflexivity.
  - cbn [app sub_scan]. rewrite (next_is_word_app r b Hb).
    destruct (st && is_word c); [apply IH|].
    destruct ((c =? AT)%N && next_is_word r); [apply IH|].
    rewrite IH. reflexivity.
Qed.

Lemma dropwhile_app_all (A : Type) (p : A -> bool) (w b : list A) :
  forallb p w = true -> dropwhile p (w ++ b) = dropwhile p b.
Proof.
  induction w as [|x w IH]; simpl; [reflexivity|].
  intros H. apply andb_true_iff in H. destruct H as [Hx Hw].
  rewrite Hx. exact (IH Hw).
Qed.

Lemma dropwhile_stops (A : Type) (p : A -> bool) (b : list A) :
  match b with x :: _ => p x | [] => false end = false -> dropwhile p b = b.
Proof. destruct b as [|x r]; simpl; [reflexivity|]. intros ->. reflexivity. Qed.

End NormalizerComposition.

(** X8.  Mention removal works piece by piece: where the text after a cut
    does not begin with a word character, removing the mentions of the whole
    is removing those of the two parts; and a mention (an [@] and a
    non-empty run of word characters) is removed wherever it stands, inside
    a word or an e-mail address as well. *)
Theorem mentions_removed_piecewise {U : Unicode} (a b : pystr) :
  next_is_word b = false ->
  replace_mentions (a ++ b) = replace_mentions a ++ replace_mentions b
  /\ forall w, w <> [] -> forallb is_word w = true ->
       replace_mentions (a ++ AT :: w ++ b) = replace_mentions a ++ replace_mentions b.
Proof.
  intros Hb. split; [apply sub_scan_app; exact Hb|].
  intros w Hw Hall. unfold replace_mentions.
  rewrite sub_scan_app by reflexivity.
  f_equal. destruct w as [|d w']; [congruence|].
  simpl in Hall. apply andb_true_iff in Hall. destruct Hall as [Hd Hw'].
  change (sub_scan false (AT :: (d :: w') ++ b))
    with (replace_mentions (AT :: d :: (w' ++ b))).
  rewrite (@replace_mentions_at _ d (w' ++ b) Hd), dropwhile_app_all by exact Hw'.
  rewrite dropwhile_stops; [reflexivity|].
  destruct b; [reflexivity|exact Hb].
Qed.

(** X8 at an e-mail address. *)
Lemma mentions_removed_piecewise_witness :
  @replace_mentions ascii_only (py "mail hello@x.com now")
  = py "mail hello.com now".
Proof.
  exact (proj2 (@mentions_removed_piecewise ascii_only (py "mail hello") (py ".com now")
                  eq_refl) (py "x") ltac:(discriminate) eq_refl).
Defined.

(* ================================================================== *)
(** * Lemmas: dictionaries and keys *)
(* ================================================================== *)

Lemma pystr_eqb_eq (a b : pystr) : pystr_eqb a b = true <-> a = b.
Proof.
  unfold pystr_eqb. destruct (list_eq_dec N.eq_dec a b); split; congruence.
Qed.

Lemma pystr_eqb_refl (a : pystr) : pystr_eqb a a = true.
Proof. apply pystr_eqb_eq. reflexivity. Qed.

Lemma pystr_eqb_neq (a b : pystr) : a <> b -> pystr_eqb a b = false.
Proof.
  intros H. destruct (pystr_eqb a b) eqn:E; [|reflexivity].
  apply pystr_eqb_eq in E. contradiction.
Qed.

Lemma dict_get_set_same (A : Type) (key : pystr) (v : A) (d : list (pystr * A)) :
  dict_get key (dict_set key v d) = Some v.
Proof.
  induction d as [|[k w] r IH]; simpl.
  - rewrite pystr_eqb_refl. reflexivity.
  - destruct (pystr_eqb key k) eqn:E; simpl; rewrite E; [reflexivity|exact IH].
Qed.

Lemma dict_get_set_other (A : Type) (key other : pystr) (v : A)
    (d : list (pystr * A)) :
  key <> other -> dict_get key (dict_set other v d) = dict_get key d.
Proof.
  intros Hne. induction d as [|[k w] r IH]; simpl.
  - rewrite (pystr_eqb_neq Hne). reflexivity.
  - destruct (pystr_eqb other k) eqn:E; simpl.
    + apply pystr_eqb_eq in E. subst k.
      rewrite (pystr_eqb_neq Hne). reflexivity.
    + destruct (pystr_eqb key k); [reflexivity|exact IH].
Qed.

Lemma choice_in (a : list pystr) (draw : nat) :
  a <> [] -> exists text, choice a draw = Some text /\ In text a.
Proof.
  intros Ha. unfold choice. destruct a as [|x r]; [congruence|].
  destruct (nth_error (x :: r) (draw mod length (x :: r))) as [text|] eqn:E.
  - exists text. split; [reflexivity|]. exact (nth_error_In _ _ E).
  - apply nth_error_None in E.
    pose proof (Nat.mod_upper_bound draw (length (x :: r))) as Hlt.
    simpl in *. lia.
Qed.

Lemma choice_in_some (a : list pystr) (draw : nat) :
  a <> [] -> exists text, choice a draw = Some text.
Proof. intros Ha. destruct (choice_in draw Ha) as (text & H & _). eauto. Qed.

Lemma no_underscore_count (s : pystr) :
  no_underscore s = true -> count_occ N.eq_dec s UNDERSCORE = 0.
Proof.
  induction s as [|c r IH]; simpl; [reflexivity|].
  intros H. apply andb_true_iff in H. destruct H as [Hc Hr].
  apply negb_true_iff, N.eqb_neq in Hc.
  destruct (N.eq_dec c UNDERSCORE); [contradiction|]. exact (IH Hr).
Qed.

Lemma count_underscore_cons (s : pystr) :
  count_occ N.eq_dec (UNDERSCORE :: s) UNDERSCORE = S (count_occ N.eq_dec s UNDERSCORE).
Proof. apply count_occ_cons_eq. reflexivity. Qed.

(** Up to the first underscore a string is read in one way only. *)
Lemma split_at_underscore (a a' b b' : pystr) :
  no_underscore a = true -> no_underscore a' = true ->
  a ++ UNDERSCORE :: b = a' ++ UNDERSCORE :: b' -> a = a' /\ b = b'.
Proof.
  revert a'. induction a as [|x a IH]; intros [|x' a'] Ha Ha' H; simpl in *.
  - injection H as ->. auto.
  - injection H as <- _. apply andb_true_iff in Ha'. destruct Ha' as [Hx _].
    discriminate.
  - injection H as -> _. apply andb_true_iff in Ha. destruct Ha as [Hx _].
    discriminate.
  - injection H as -> H.
    apply andb_true_iff in Ha, Ha'.
    destruct (IH a' (proj2 Ha) (proj2 Ha') H) as [-> ->]. auto.
Qed.

Section TemplateLemmas.
Context {T : Type} {P : PyNumber T}.

Lemma threshold_key_both (category : pystr) (u f : T) :
  threshold_key category (Some u) (Some f) = custom_key category u f.
Proof.
  unfold threshold_key, custom_key. rewrite <- !app_assoc. reflexivity.
Qed.

(** Every key [get_template] looks up has two underscores or more. *)
Lemma custom_key_underscores (category : pystr) (u f : T) :
  2 <= count_occ N.eq_dec (custom_key category u f) UNDERSCORE.
Proof.
  unfold custom_key. rewrite count_occ_app. simpl app.
  rewrite count_underscore_cons, count_occ_app, count_underscore_cons. lia.
Qed.

(** [get_template] reads the custom templates under its own key only. *)
Lemma get_template_same_lookup (self self' : ResponseTemplates) (category : pystr)
    (u f : T) (draw : nat) :
  templates self' = templates self ->
  dict_get (custom_key category u f) (custom_templates self')
  = dict_get (custom_key category u f) (custom_templates self) ->
  get_template self' category u f draw = get_template self category u f draw.
Proof.
  intros Ht Hc. unfold get_template, get_template_body, toned_choice.
  rewrite Ht, Hc. reflexivity.
Qed.

Lemma add_custom_template_other_key (self : ResponseTemplates)
    (category template : pystr) (ut ft : option T) (key : pystr) :
  key <> threshold_key category ut ft ->
  dict_get key (custom_templates (add_custom_template self category template ut ft))
  = dict_get key (custom_templates self).
Proof. intros H. unfold add_custom_template. simpl. apply dict_get_set_other, H. Qed.

End TemplateLemmas.

(* ================================================================== *)
(** * Properties of ResponseTemplates *)
(* ================================================================== *)

(** X9.  A template added with both thresholds is found again: a later
    [get_template] for the same category and the same two numbers returns
    one of the templates stored under that key, the new one among them,
    whatever the random draw; it returns the new template itself when it is
    the only one.  Custom templates come before the default ones. *)
Theorem custom_template_round_trip {T : Type} {P : PyNumber T}
    (self : ResponseTemplates) (category template : pystr) (u f : T) (draw : nat) :
  stored_templates (add_custom_template self category template (Some u) (Some f))
    (custom_key category u f)
  = stored_templates self (custom_key category u f) ++ [template]
  /\ In (get_template (add_custom_template self category template (Some u) (Some f))
           category u f draw)
        (stored_templates self (custom_key category u f) ++ [template])
  /\ (stored_templates self (custom_key category u f) = [] ->
      get_template (add_custom_template self category template (Some u) (Some f))
        category u f draw = template).
Proof.
  assert (Hget : dict_get (custom_key category u f)
                   (custom_templates
                      (add_custom_template self category template (Some u) (Some f)))
                 = Some (stored_templates self (custom_key category u f) ++ [template])).
  { unfold add_custom_template. cbn [custom_templates].
    rewrite threshold_key_both. apply dict_get_set_same. }
  assert (Hin : In (get_template
                      (add_custom_template self category template (Some u) (Some f))
                      category u f draw)
                   (stored_templates self (custom_key category u f) ++ [template])).
  { unfold get_template, get_template_body. rewrite Hget.
    destruct (@choice_in (stored_templates self (custom_key category u f) ++ [template])
                draw) as (text & -> & Hin).
    - destruct (stored_templates self (custom_key category u f)); discriminate.
    - exact Hin. }
  split; [|split; [exact Hin|]].
  - unfold stored_templates at 1. rewrite Hget. reflexivity.
  - intros Hnone. rewrite Hnone in Hin. simpl in Hin. destruct Hin as [<-|[]].
    reflexivity.
Qed.

(** X10.  A template added with fewer than two thresholds is never used:
    when the category and the threshold that is given are written without
    an underscore, no call of [get_template] (whatever its category, its
    scores and the draw) is changed by the addition. *)
Theorem template_without_both_thresholds_unused {T : Type} {P : PyNumber T}
    (self : ResponseTemplates) (category template : pystr)
    (urgency_threshold frustration_threshold : option T) :
  no_underscore category = true ->
  clean_threshold urgency_threshold = true ->
  clean_threshold frustration_threshold = true ->
  urgency_threshold = None \/ frustration_threshold = None ->
  forall query (u f : T) draw,
    get_template (add_custom_template self category template
                    urgency_threshold frustration_threshold) query u f draw
    = get_template self query u f draw.
Proof.
  intros Hcat Hu Hf Hone query u f draw.
  apply get_template_same_lookup; [reflexivity|].
  apply add_custom_template_other_key. intros Heq.
  pose proof (custom_key_underscores query u f) as Hq. rewrite Heq in Hq.
  unfold threshold_key in Hq. rewrite !count_occ_app in Hq.
  rewrite (no_underscore_count _ Hcat) in Hq.
  destruct urgency_threshold as [x|], frustration_threshold as [y|];
    simpl in Hu, Hf, Hq;
    try rewrite (no_underscore_count _ Hu) in Hq;
    try rewrite (no_underscore_count _ Hf) in Hq;
    try (destruct Hone; discriminate); simpl in Hq; lia.
Qed.

(** X11.  The two numbers of a custom template are matched as written, not
    as minimum scores: a template added for thresholds [u] and [f] is not
    used for a query of the same category whose urgency or frustration
    score is written differently, for one above the threshold as little as
    for one below. *)
Theorem custom_template_matches_exactly {T : Type} {P : PyNumber T}
    (self : ResponseTemplates) (category template : pystr) (u f qu qf : T)
    (draw : nat) :
  no_underscore (format_number u) = true ->
  no_underscore (format_number qu) = true ->
  format_number qu <> format_number u \/ format_number qf <> format_number f ->
  get_template (add_custom_template self category template (Some u) (Some f))
    category qu qf draw
  = get_template self category qu qf draw.
Proof.
  intros Hu Hqu Hdiff.
  apply get_template_same_lookup; [reflexivity|].
  apply add_custom_template_other_key. rewrite threshold_key_both.
  unfold custom_key. intros Heq.
  apply app_inv_head in Heq. simpl in Heq. injection Heq as Heq.
  destruct (split_at_underscore _ _ _ _ Hqu Hu Heq) as [H1 H2].
  destruct Hdiff as [H|H]; contradiction.
Qed.

Section TemplateInvariant.
Context {T : Type} {P : PyNumber T}.

Lemma dict_set_nonempty (key : pystr) (v : list pystr)
    (d : list (pystr * list pystr)) :
  v <> [] -> Forall (fun kv => snd kv <> []) d ->
  Forall (fun kv => snd kv <> []) (dict_set key v d).
Proof.
  intros Hv Hd. induction Hd as [|[k w] r Hk Hr IH]; simpl.
  - constructor; [exact Hv|constructor].
  - destruct (pystr_eqb key k); constructor; auto.
Qed.

Lemma dict_get_nonempty (key : pystr) (texts : list pystr)
    (d : list (pystr * list pystr)) :
  Forall (fun kv => snd kv <> []) d -> dict_get key d = Some texts -> texts <> [].
Proof.
  intros Hd. induction Hd as [|[k w] r Hk Hr IH]; simpl; [discriminate|].
  destruct (pystr_eqb key k); [|exact IH].
  intros [= <-]. exact Hk.
Qed.

(** What every object built by the class keeps: the default templates, and
    no empty list of custom templates. *)
Lemma built_invariant (self : ResponseTemplates) :
  built self ->
  templates self = _initialize_templates
  /\ Forall (fun kv => snd kv <> []) (custom_templates self).
Proof.
  induction 1 as [|self category template ut ft Hb [Ht Hc]].
  - split; [reflexivity|constructor].
  - split; [exact Ht|].
    unfold add_custom_template. cbn [custom_templates].
    apply dict_set_nonempty; [|exact Hc].
    destruct (stored_templates self _); discriminate.
Qed.

Lemma toned_choice_default (self : ResponseTemplates) (category tone : pystr)
    (draw : nat) :
  templates self = _initialize_templates ->
  default_texts category tone <> [] ->
  exists text, toned_choice self category tone draw = Some text.
Proof.
  intros Ht Hne. unfold toned_choice. rewrite Ht.
  unfold default_texts in Hne.
  destruct (dict_get category _initialize_templates) as [[variants|texts]|];
    try congruence.
  destruct (dict_get tone variants) as [texts|]; [|congruence].
  destruct (@choice_in texts draw Hne) as (text & -> & _). eauto.
Qed.

End TemplateInvariant.

(** X12.  On an object built by [__init__] and [add_custom_template], the
    [try] block of [get_template] never raises, for any category, scores
    and draw: the answer is the text the block selects, and the fixed
    answer of the [except] clause is never given in its place. *)
Theorem get_template_never_falls_back {T : Type} {P : PyNumber T}
    (self : ResponseTemplates) (category : pystr) (u f : T) (draw : nat) :
  built self ->
  exists text,
    get_template_body self category u f draw = Some text
    /\ get_template self category u f draw = text.
Proof.
  intros Hb. destruct (built_invariant Hb) as [Ht Hc].
  assert (Hbody : exists text, get_template_body self category u f draw = Some text).
  { unfold get_template_body.
    destruct (dict_get (custom_key category u f) (custom_templates self))
      as [texts|] eqn:Hk.
    - destruct (@choice_in texts draw (@dict_get_nonempty _ _ _ Hc Hk)) as (text & -> & _).
      eauto.
    - destruct (pystr_eqb category (py "escalation")) eqn:He.
      { destruct (greater_than u 5); apply toned_choice_default; try exact Ht;
          vm_compute; discriminate. }
      destruct (pystr_eqb category (py "acknowledgment")) eqn:Ha.
      { destruct (greater_than f 3); apply toned_choice_default; try exact Ht;
          vm_compute; discriminate. }
      rewrite Ht. unfold _initialize_templates. cbn [dict_get].
      rewrite He, Ha.
      destruct (pystr_eqb category (py "instruction")).
      { apply choice_in_some. discriminate. }
      destruct (pystr_eqb category (py "followup")).
      { apply choice_in_some. discriminate. }
      destruct (pystr_eqb category (py "general")).
      { apply choice_in_some. discriminate. }
      eauto. }
  destruct Hbody as [text Hbody]. exists text. split; [exact Hbody|].
  unfold get_template. rewrite Hbody. reflexivity.
Qed.

(* ================================================================== *)
(** * Properties of ModelBuilder *)
(* ================================================================== *)

Lemma Qltb_lt (a b : Q) : Qltb a b = true <-> (a < b)%Q.
Proof.
  unfold Qltb. rewrite negb_true_iff. split.
  - intros H. apply Qnot_le_lt. intros Hle.
    apply Qle_bool_iff in Hle. congruence.
  - intros H. destruct (Qle_bool b a) eqn:E; [|reflexivity].
    apply Qle_bool_iff in E. exfalso. exact (Qlt_not_le _ _ H E).
Qed.

Lemma Qltb_ge (a b : Q) : Qltb a b = false -> (b <= a)%Q.
Proof.
  unfold Qltb. rewrite negb_false_iff. apply Qle_bool_iff.
Qed.

Section Selection.
Context {Features Labels Estimator : Type} {S : Sklearn Features Labels Estimator}.
Variables (X_train X_test : Features) (y_train y_test : Labels).

(** The loop keeps a fitted estimator of the highest accuracy seen above
    the starting score, and keeps what it had when none is higher. *)
Lemma best_of_spec (candidates : list (pystr * Estimator)) :
  forall (best_model : option Estimator) (best_score : Q)
         (m : option Estimator) (s : Q),
  best_of candidates X_train X_test y_train y_test best_model best_score = Ok (m, s) ->
  (best_score <= s)%Q
  /\ (forall name model fitted sc,
        In (name, model) candidates ->
        fit model X_train y_train = Ok fitted ->
        score fitted X_test y_test = Ok sc -> (sc <= s)%Q)
  /\ ((m = best_model /\ s = best_score)
      \/ ((best_score < s)%Q
          /\ exists name model fitted,
               In (name, model) candidates
               /\ fit model X_train y_train = Ok fitted
               /\ m = Some fitted
               /\ score fitted X_test y_test = Ok s)).
Proof.
  induction candidates as [|[name model] rest IH]; intros bm bs m s; simpl.
  - intros [= <- <-]. split; [apply Qle_refl|].
    split; [intros ? ? ? ? []|]. left. auto.
  - destruct (fit model X_train y_train) as [fitted|] eqn:Hfit; simpl; [|discriminate].
    destruct (score fitted X_test y_test) as [sc|] eqn:Hsc; simpl; [|discriminate].
    destruct (Qltb bs sc) eqn:Hlt; intros H; destruct (IH _ _ _ _ H) as (H1 & H2 & H3).
    + apply Qltb_lt in Hlt.
      split; [eapply Qle_trans; [apply Qlt_le_weak, Hlt|exact H1]|].
      split.
      * intros n md ft sc' [Hin|Hin] Hf Hs.
        -- injection Hin as <- <-. rewrite Hfit in Hf. injection Hf as <-.
           rewrite Hsc in Hs. injection Hs as <-. exact H1.
        -- exact (H2 _ _ _ _ Hin Hf Hs).
      * right. destruct H3 as [[-> ->]|(Hs & n & md & ft & Hin & Hf & Hm & Hs')].
        -- split; [exact Hlt|]. exists name, model, fitted. auto.
        -- split; [eapply Qlt_trans; eassumption|].
           exists n, md, ft. auto.
    + apply Qltb_ge in Hlt.
      split; [exact H1|]. split.
      * intros n md ft sc' [Hin|Hin] Hf Hs.
        -- injection Hin as <- <-. rewrite Hfit in Hf. injection Hf as <-.
           rewrite Hsc in Hs. injection Hs as <-.
           eapply Qle_trans; eassumption.
        -- exact (H2 _ _ _ _ Hin Hf Hs).
      * destruct H3 as [H3|(Hs & n & md & ft & Hin & Hf & Hm & Hs')]; [left; exact H3|].
        right. split; [exact Hs|]. exists n, md, ft. auto.
Qed.

End Selection.

(** X13.  When [build_response_classifier] returns, what it stored under
    [response_classifier] is a fitted candidate whose test accuracy is above
    0 and at least that of every candidate, or [None] when no candidate
    scores above 0; a tie goes to naive Bayes, the first candidate.  The
    vectorizers and the other models are left as they were. *)
Theorem best_classifier_is_stored {Features Labels Estimator Vectorizer : Type}
    {S : Sklearn Features Labels Estimator}
    (self self' : ModelBuilder Estimator Vectorizer)
    (text_features : Features) (y : Labels) :
  build_response_classifier self text_features y = Ok self' ->
  exists X_train X_test y_train y_test stored s,
    train_test_split text_features y = Ok (X_train, X_test, y_train, y_test)
    /\ dict_get (py "response_classifier") (models self') = Some stored
    /\ vectorizers self' = vectorizers self
    /\ (forall key, key <> py "response_classifier" ->
          dict_get key (models self') = dict_get key (models self))
    /\ (forall name model fitted sc,
          In (name, model) classifier_candidates ->
          fit model X_train y_train = Ok fitted ->
          score fitted X_test y_test = Ok sc -> (sc <= s)%Q)
    /\ match stored with
       | Some m =>
           (0 < s)%Q /\ score m X_test y_test = Ok s
           /\ exists name model,
                In (name, model) classifier_candidates
                /\ fit model X_train y_train = Ok m
       | None => s = 0%Q
       end
    /\ (forall nb s1,
          fit MultinomialNB X_train y_train = Ok nb ->
          score nb X_test y_test = Ok s1 -> (0 < s1)%Q ->
          (forall rf s2, fit RandomForestClassifier X_train y_train = Ok rf ->
                         score rf X_test y_test = Ok s2 -> (s2 <= s1)%Q) ->
          stored = Some nb).
Proof.
  unfold build_response_classifier.
  destruct (train_test_split text_features y) as [[[[X_train X_test] y_train] y_test]|]
    eqn:Hsplit; cbn [bind]; [|discriminate].
  destruct (best_of classifier_candidates X_train X_test y_train y_test None 0%Q)
    as [[stored s]|] eqn:Hbest; cbn [bind fst]; [|discriminate].
  intros [= <-].
  exists X_train, X_test, y_train, y_test, stored, s.
  destruct (best_of_spec _ _ _ _ _ _ _ Hbest) as (H1 & H2 & H3).
  split; [reflexivity|]. split; [apply dict_get_set_same|].
  split; [reflexivity|].
  split; [intros key Hk; apply dict_get_set_other; exact Hk|].
  split; [exact H2|]. split.
  - destruct H3 as [[-> ->]|(Hs & n & md & ft & Hin & Hf & -> & Hs')];
      [reflexivity|eauto 6].
  - intros nb s1 Hnb Hs1 Hpos Hties.
    revert Hbest. unfold classifier_candidates. cbn [best_of].
    rewrite Hnb. cbn [bind]. rewrite Hs1. cbn [bind].
    replace (Qltb 0 s1) with true by (symmetry; apply Qltb_lt; exact Hpos).
    destruct (fit RandomForestClassifier X_train y_train) as [rf|] eqn:Hrf;
      cbn [bind]; [|discriminate].
    destruct (score rf X_test y_test) as [s2|] eqn:Hs2; cbn [bind]; [|discriminate].
    replace (Qltb s1 s2) with false.
    + intros [= <- _]. reflexivity.
    + symmetry. destruct (Qltb s1 s2) eqn:E; [|reflexivity].
      apply Qltb_lt in E. exfalso.
      exact (Qlt_not_le _ _ E (Hties rf s2 eq_refl Hs2)).
Qed.

(* ================================================================== *)
(** * The further properties at concrete inputs *)
(* ================================================================== *)

(** X3 at a file with a missing text, read in chunks of two. *)
Lemma successful_call_counts_every_row_witness :
  exists table,
    returned (@_process_with_chunks ascii_only gappy_world demo_processor
                "data/gappy.csv" (Some quiet_callback)) = Ok table
    /\ nrows table = 3
    /\ total_rows (after (@_process_with_chunks ascii_only gappy_world demo_processor
                            "data/gappy.csv" (Some quiet_callback))) = 3.
Proof.
  assert (H : exists table,
            returned (@_process_with_chunks ascii_only gappy_world demo_processor
                        "data/gappy.csv" (Some quiet_callback)) = Ok table).
  { eexists. vm_compute. reflexivity. }
  destruct H as [table H]. exists table.
  destruct (@successful_call_counts_every_row ascii_only gappy_world demo_processor
              "data/gappy.csv" (Some quiet_callback) gappy_file table eq_refl H)
    as (H1 & _ & H3 & _).
  split; [exact H|]. split; [exact H1|exact H3].
Defined.

(** X4 at the three-row file, for a processor with chunks of two. *)
Lemma estimate_file_size_bounds_witness :
  exists info,
    @estimate_file_size demo_world demo_processor "data/twcs.csv" = Ok info
    /\ recommended_chunk_size info = 2%Z.
Proof.
  assert (H : exists info,
            @estimate_file_size demo_world demo_processor "data/twcs.csv" = Ok info).
  { eexists. vm_compute. reflexivity. }
  destruct H as [info H]. exists info. split; [exact H|].
  destruct (@estimate_file_size_bounds demo_world demo_processor "data/twcs.csv" info H)
    as (_ & H2 & _).
  apply H2. change (2 <= 1000)%Z. lia.
Defined.

(** X5 at the file whose line 3 has seven fields. *)
Lemma early_malformed_line_stops_estimate_witness :
  calls (@process_large_csv ascii_only demo_world demo_processor
           "data/bad_row.csv" (Some quiet_callback)) = []
  /\ after (@process_large_csv ascii_only demo_world demo_processor
              "data/bad_row.csv" (Some quiet_callback)) = demo_processor.
Proof.
  destruct (@early_malformed_line_stops_estimate ascii_only demo_world demo_processor
              "data/bad_row.csv" (Some quiet_callback) bad_row_file eq_refl)
    as (_ & H2 & H3).
  - discriminate.
  - reflexivity.
  - split; [exact H2|exact H3].
Defined.

(** X6 at the file with an unparseable timestamp in its second row, read in
    chunks of one: the first chunk is counted and reported. *)
Lemma failure_keeps_partial_progress_witness :
  processed_chunks
    (after (@_process_with_chunks ascii_only demo_world
              (new_processor default_config (Some 1%Z)) "data/bad_a.csv"
              (Some quiet_callback))) = 1
  /\ calls (@_process_with_chunks ascii_only demo_world
              (new_processor default_config (Some 1%Z)) "data/bad_a.csv"
              (Some quiet_callback)) = [(0, 1, 1)].
Proof.
  destruct (@failure_keeps_partial_progress ascii_only demo_world
              (new_processor default_config (Some 1%Z)) "data/bad_a.csv"
              (Some quiet_callback) bad_time_file 1
              [demo_line "2" "115713" "yesterday" "help"])
    as (_ & H2 & _ & H4); try reflexivity.
  - exact quiet_callback_returns.
  - repeat constructor.
  - split; [exact H2|exact H4].
Defined.

(** X7 at the three-row file in chunks of two, with a callback that raises
    on the second chunk. *)
Lemma callback_exception_aborts_witness :
  returned (@_process_with_chunks ascii_only demo_world demo_processor
              "data/twcs.csv" (Some failing_callback)) = Err (RuntimeError 7)
  /\ processed_chunks
       (after (@_process_with_chunks ascii_only demo_world demo_processor
                 "data/twcs.csv" (Some failing_callback))) = 2.
Proof.
  destruct (@callback_exception_aborts ascii_only demo_world demo_processor
              "data/twcs.csv" failing_callback demo_file 1 (1, 1, 3) (RuntimeError 7))
    as (H1 & _ & H3 & _); try reflexivity.
  - simpl. lia.
  - repeat constructor.
  - repeat constructor.
  - split; [exact H1|exact H3].
Defined.

(** X10 at a template for [general] with an urgency threshold only. *)
Lemma template_without_both_thresholds_unused_witness :
  @get_template Z int_number
    (@add_custom_template Z int_number new_templates (py "general")
       (py "We are on it.") (Some 5%Z) None)
    (py "general") 5%Z 0%Z 0
  = @get_template Z int_number new_templates (py "general") 5%Z 0%Z 0.
Proof.
  apply (@template_without_both_thresholds_unused Z int_number new_templates
           (py "general") (py "We are on it.") (Some 5%Z) None);
    try reflexivity.
  right. reflexivity.
Defined.

(** X11 at a template for urgency 5 and frustration 3, asked with urgency 7. *)
Lemma custom_template_matches_exactly_witness :
  @get_template Z int_number
    (@add_custom_template Z int_number new_templates (py "escalation")
       (py "We are on it.") (Some 5%Z) (Some 3%Z))
    (py "escalation") 7%Z 3%Z 0
  = @get_template Z int_number new_templates (py "escalation") 7%Z 3%Z 0.
Proof.
  apply (@custom_template_matches_exactly Z int_number new_templates
           (py "escalation") (py "We are on it.") 5%Z 3%Z 7%Z 3%Z 0);
    try reflexivity.
  left. vm_compute. discriminate.
Defined.

(** X12 at an object with one custom template. *)
Lemma get_template_never_falls_back_witness :
  exists text,
    @get_template_body Z int_number
      (@add_custom_template Z int_number new_templates (py "escalation")
         (py "We are on it.") (Some 5%Z) (Some 3%Z))
      (py "billing") 1%Z 1%Z 4 = Some text.
Proof.
  destruct (@get_template_never_falls_back Z int_number
              (@add_custom_template Z int_number new_templates (py "escalation")
                 (py "We are on it.") (Some 5%Z) (Some 3%Z))
              (py "billing") 1%Z 1%Z 4) as (text & H & _).
  - apply built_add. apply built_new.
  - exists text. exact H.
Defined.

(** X13 at two candidates of equal accuracy: naive Bayes is stored. *)
Lemma best_classifier_is_stored_witness :
  exists self',
    @build_response_classifier unit unit (pystr * bool) unit toy_sklearn
      {| models := []; vectorizers := [] |} tt tt = Ok self'
    /\ dict_get (py "response_classifier") (models self') = Some (Some (py "nb", true)).
Proof.
  assert (H : exists self',
            @build_response_classifier unit unit (pystr * bool) unit toy_sklearn
              {| models := []; vectorizers := [] |} tt tt = Ok self').
  { eexists. vm_compute. reflexivity. }
  destruct H as [self' H]. exists self'. split; [exact H|].
  destruct (@best_classifier_is_stored unit unit (pystr * bool) unit toy_sklearn
              _ self' tt tt H)
    as (X_train & X_test & y_train & y_test & stored & s & _ & Hget & _ & _ & _ & _ & Hnb).
  rewrite Hget. do 2 f_equal.
  apply (Hnb (py "nb", true) (4 # 5)%Q); try reflexivity.
  intros rf s2 _ Hs2. injection Hs2 as <-. apply Qle_refl.
Defined.
